(** * The todo application: reducers, action creators and selector

    A shallow embedding of [bundle.js].  JavaScript objects and arrays live
    in an explicit heap, so that "the same object" (reference equality) and
    "an equal object" (the same fields) are different statements, as they
    are in the program. *)

From stdpp Require Import gmap strings list fin_maps pretty.
From Stdlib Require Import ZArith Lia.

Open Scope string_scope.
Open Scope Z_scope.
Open Scope list_scope.

(** ** Values, objects and the heap *)

(** A heap location.  Locations are allocated in increasing order. *)
Abbreviation loc := nat.

(** JavaScript values.  Numbers are the integer-valued ones (todo ids are
    integers drawn from a counter); objects and arrays are references. *)
Inductive value :=
  | VUndef
  | VNull
  | VBool (b : bool)
  | VNum (n : Z)
  | VStr (s : string)
  | VRef (l : loc).

#[global] Instance value_eq_dec : EqDecision value.
Proof. solve_decision. Defined.

#[global] Instance value_inhabited : Inhabited value := populate VUndef.

(** A heap cell: a plain object (own properties by name) or an array. *)
Inductive cell :=
  | OObj (fields : gmap string value)
  | OArr (elems : list value).

Abbreviation heap := (list cell).

(** An action is a record [{ type, ...payload }].  Its identity is never
    observed by the reducers, so it is passed by value. *)
Abbreviation action := (gmap string value).

(** Errors.  [TypeError] is the JavaScript exception; [Dangling] marks a
    reference that points outside the heap, which no JavaScript program can
    produce; the last two are the errors of the store library. *)
Inductive error :=
  | TypeError
  | Dangling
  | ReducerContractViolation
  | InvalidAction.

Inductive result (A : Type) :=
  | Ok (a : A)
  | Throw (e : error).
Arguments Ok {A} a.
Arguments Throw {A} e.

(** Computations read and extend the heap and may throw. *)
Definition M (A : Type) := heap -> result (heap * A).

Definition ret {A} (a : A) : M A := fun h => Ok (h, a).
Definition throw {A} (e : error) : M A := fun _ => Throw e.
Definition bind {A B} (m : M A) (k : A -> M B) : M B :=
  fun h => match m h with
           | Ok (h', a) => k a h'
           | Throw e => Throw e
           end.

Notation "x <- m ;; k" := (bind m (fun x => k))
  (at level 100, m at next level, right associativity).

(** [new c] allocates the cell [c] at the next free location. *)
Definition new (c : cell) : M value :=
  fun h => Ok (h ++ [c], VRef (length h)).

(** ** Primitive operations of the language *)

(** [ToBoolean]: the truthiness of a value, as used by [!v] and by the
    callback result of [Array.prototype.filter]. *)
Definition to_boolean (v : value) : bool :=
  match v with
  | VUndef | VNull => false
  | VBool b => b
  | VNum n => negb (n =? 0)
  | VStr EmptyString => false
  | VStr (String _ _) => true
  | VRef _ => true
  end.

(** Strict equality [===].  Objects compare by reference. *)
Definition strict_eq (v w : value) : bool := bool_decide (v = w).

(** Reading a field of an action record: an absent field reads as
    [undefined]. *)
Definition field (a : action) (k : string) : value := default VUndef (a !! k).

(** The own enumerable index properties of an array or string:
    ["0"], ["1"], ... *)
Definition index_props (vs : list value) : gmap string value :=
  list_to_map (zip (pretty <$> seq 0 (length vs)) vs).

Fixpoint chars (s : string) : list value :=
  match s with
  | EmptyString => []
  | String c s' => VStr (String c EmptyString) :: chars s'
  end.

(** Reading a property.  The names read in this program are [id] and
    [completed] of a todo and the two slice names of the state.  None of
    them is defined on primitives or on arrays, where the read gives
    [undefined]; reading from [undefined] or [null] throws. *)
Definition get_prop (v : value) (k : string) : M value :=
  fun h =>
    match v with
    | VUndef | VNull => Throw TypeError
    | VBool _ | VNum _ | VStr _ => Ok (h, VUndef)
    | VRef l =>
        match h !! l with
        | Some (OObj o) => Ok (h, default VUndef (o !! k))
        | Some (OArr _) => Ok (h, VUndef)
        | None => Throw Dangling
        end
    end.

(** The properties copied by an object spread [{...v}]. *)
Definition spread_props (v : value) : M (gmap string value) :=
  fun h =>
    match v with
    | VUndef | VNull | VBool _ | VNum _ => Ok (h, ∅)
    | VStr s => Ok (h, index_props (chars s))
    | VRef l =>
        match h !! l with
        | Some (OObj o) => Ok (h, o)
        | Some (OArr vs) => Ok (h, index_props vs)
        | None => Throw Dangling
        end
    end.

(** ** Reducers *)

(** [todo]: the reducer for a single todo item. *)
Definition todo (state : value) (a : action) : M value :=
  if strict_eq (field a "type") (VStr "ADD_TODO") then
    new (OObj {[ "id" := field a "id";
                 "text" := field a "text";
                 "completed" := VBool false ]})
  else if strict_eq (field a "type") (VStr "TOGGLE_TODO") then
    id <- get_prop state "id" ;;
    if negb (strict_eq id (field a "id")) then ret state
    else
      o <- spread_props state ;;
      c <- get_prop state "completed" ;;
      new (OObj (<["completed" := VBool (negb (to_boolean c))]> o))
  else ret state.

(** [xs.map(f)] on the elements, left to right. *)
Fixpoint map_each {A B} (f : A -> M B) (xs : list A) : M (list B) :=
  match xs with
  | [] => ret []
  | x :: xs' => y <- f x ;; ys <- map_each f xs' ;; ret (y :: ys)
  end.

(** [xs.filter(f)] on the elements: an element is kept when the callback's
    result is truthy. *)
Fixpoint filter_each (f : value -> M value) (xs : list value) : M (list value) :=
  match xs with
  | [] => ret []
  | x :: xs' =>
      keep <- f x ;;
      ys <- filter_each f xs' ;;
      ret (if to_boolean keep then x :: ys else ys)
  end.

(** The elements produced by an array spread [[...v]]: arrays and strings
    are iterable, nothing else in this model is. *)
Definition iterate (v : value) : M (list value) :=
  fun h =>
    match v with
    | VStr s => Ok (h, chars s)
    | VRef l =>
        match h !! l with
        | Some (OArr vs) => Ok (h, vs)
        | Some (OObj _) => Throw TypeError
        | None => Throw Dangling
        end
    | _ => Throw TypeError
    end.

(** The receiver of a call to an array method ([v.map], [v.filter]).  Only
    arrays have these methods; on every other value the call throws
    (no value of this model is a function). *)
Definition array_elems (v : value) : M (list value) :=
  fun h =>
    match v with
    | VRef l =>
        match h !! l with
        | Some (OArr vs) => Ok (h, vs)
        | Some (OObj _) => Throw TypeError
        | None => Throw Dangling
        end
    | _ => Throw TypeError
    end.

Definition array_map (f : value -> M value) (v : value) : M value :=
  vs <- array_elems v ;; ws <- map_each f vs ;; new (OArr ws).

Definition array_filter (f : value -> M value) (v : value) : M value :=
  vs <- array_elems v ;; ws <- filter_each f vs ;; new (OArr ws).

(** [todos]: the reducer for the array of todo items.  The default
    parameter [state = []] allocates a fresh empty array when the prior
    state is [undefined]. *)
Definition todos (state : value) (a : action) : M value :=
  state <- (if strict_eq state VUndef then new (OArr []) else ret state) ;;
  if strict_eq (field a "type") (VStr "ADD_TODO") then
    vs <- iterate state ;;
    t <- todo VUndef a ;;
    new (OArr (vs ++ [t]))
  else if strict_eq (field a "type") (VStr "TOGGLE_TODO") then
    array_map (fun t => todo t a) state
  else ret state.

(** [visibilityFilter]: the reducer for the visibility filter. *)
Definition visibilityFilter (state : value) (a : action) : M value :=
  let state := if strict_eq state VUndef then VStr "SHOW_ALL" else state in
  if strict_eq (field a "type") (VStr "SET_VISIBILITY_FILTER") then
    ret (field a "filter")
  else ret state.

(** ** Action creators *)

(** [addTodo] reads and increments the global counter [nextTodoId], which
    is threaded here as an explicit state.  JavaScript numbers represent
    the integers of this counter exactly up to 2^53; the counter is taken
    as an unbounded integer. *)
Definition addTodo (text : value) (nextTodoId : Z) : action * Z :=
  ({[ "type" := VStr "ADD_TODO"; "id" := VNum nextTodoId; "text" := text ]},
   nextTodoId + 1).

Definition toggleTodo (id : value) : action :=
  {[ "type" := VStr "TOGGLE_TODO"; "id" := id ]}.

Definition setVisibilityFilter (filter : value) : action :=
  {[ "type" := VStr "SET_VISIBILITY_FILTER"; "filter" := filter ]}.

(** ** Selector *)

(** [getVisibleTodos]: the switch has no default case, so any other filter
    falls out of the function, which then returns [undefined]. *)
Definition getVisibleTodos (todos filter : value) : M value :=
  if strict_eq filter (VStr "SHOW_ALL") then ret todos
  else if strict_eq filter (VStr "SHOW_COMPLETED") then
    array_filter (fun t => get_prop t "completed") todos
  else if strict_eq filter (VStr "SHOW_ACTIVE") then
    array_filter
      (fun t => c <- get_prop t "completed" ;; ret (VBool (negb (to_boolean c))))
      todos
  else ret VUndef.

(** ** Store *)

Definition reducer := value -> action -> M value.

(** Modelled from the spec: [combineReducers] is the Redux function, which
    is not among the sources.  Following section 4.4, the root reducer
    calls every slice reducer with the prior slice (absent when the prior
    state is absent) and the action, and assembles a state object from the
    results; a slice reducer must not yield an absent result (sections 4.4
    and 7).  Following section 8 (unknown-action idempotence, scenario D),
    when no slice changed the prior state object itself is returned. *)
Definition combineReducers (reducers : list (string * reducer)) : reducer :=
  fun state a =>
    next <- map_each (fun kr : string * reducer =>
                    prev <- (if strict_eq state VUndef then ret VUndef
                             else get_prop state kr.1) ;;
                    v <- kr.2 prev a ;;
                    if strict_eq v VUndef then throw ReducerContractViolation
                    else ret (kr.1, prev, v))
                 reducers ;;
    if negb (strict_eq state VUndef)
       && forallb (fun x : string * value * value => strict_eq x.2 x.1.2) next
    then ret state
    else new (OObj (list_to_map ((fun x : string * value * value =>
                                    (x.1.1, x.2)) <$> next))).

Definition todoApp : reducer :=
  combineReducers [("todos", todos); ("visibilityFilter", visibilityFilter)].

(** Modelled from the spec: the store is the Redux one, which is not among
    the sources.  Following section 4.5, [createStore] computes the initial
    state from an absent prior state and a reserved initialization action,
    and [dispatch] replaces the state by the root reducer's result; an
    action without a [type] is rejected (section 7).  Listeners receive no
    arguments and are left out. *)
Definition INIT : action := {[ "type" := VStr "@@redux/INIT" ]}.

Definition createStore (r : reducer) : M value := r VUndef INIT.

Definition dispatch (r : reducer) (a : action) (state : value) : M value :=
  if strict_eq (field a "type") VUndef then throw InvalidAction
  else r state a.

(** ** The application: user events *)

(** The three places where the components dispatch: the button of
    [AddTodo], a click on a todo of [VisibleTodoList], and a click on a
    [FilterLink]. *)
Inductive event :=
  | AddTodoClick (text : string)
  | TodoClick (id : value)
  | FilterLinkClick (filter : string).

(** The running application: the heap, the store's current state and the
    counter [nextTodoId]. *)
Record world := World {
  w_heap : heap;
  w_state : value;
  w_nextTodoId : Z
}.

Definition dispatch_in (w : world) (a : action) (n : Z) : result world :=
  match dispatch todoApp a (w_state w) (w_heap w) with
  | Ok (h, s) => Ok (World h s n)
  | Throw e => Throw e
  end.

Definition handle (w : world) (e : event) : result world :=
  match e with
  | AddTodoClick text =>
      let '(a, n) := addTodo (VStr text) (w_nextTodoId w) in dispatch_in w a n
  | TodoClick id => dispatch_in w (toggleTodo id) (w_nextTodoId w)
  | FilterLinkClick filter =>
      dispatch_in w (setVisibilityFilter (VStr filter)) (w_nextTodoId w)
  end.

Fixpoint run (w : world) (es : list event) : result world :=
  match es with
  | [] => Ok w
  | e :: es' =>
      match handle w e with
      | Ok w' => run w' es'
      | Throw err => Throw err
      end
  end.

(** The application at start-up: an empty heap, [createStore(todoApp)] and
    [nextTodoId = 0]. *)
Definition start : result world :=
  match createStore todoApp [] with
  | Ok (h, s) => Ok (World h s 0)
  | Throw e => Throw e
  end.

(** ** Reading the heap *)

(** The fields of the object [v] refers to. *)
Definition obj_of (h : heap) (v : value) : option (gmap string value) :=
  match v with
  | VRef l => match h !! l with Some (OObj o) => Some o | _ => None end
  | _ => None
  end.

(** The elements of the array [v] refers to. *)
Definition arr_of (h : heap) (v : value) : option (list value) :=
  match v with
  | VRef l => match h !! l with Some (OArr vs) => Some vs | _ => None end
  | _ => None
  end.

(** The todos of the array [v], as records, in order. *)
Definition read_todos (h : heap) (v : value) : option (list (gmap string value)) :=
  vs ← arr_of h v; mapM (obj_of h) vs.

Definition prop (o : gmap string value) (k : string) : value :=
  default VUndef (o !! k).

(** Well-formedness, as executable checks. *)

(** [v] does not point outside the heap. *)
Definition in_heap (h : heap) (v : value) : bool :=
  match v with
  | VRef l => bool_decide (is_Some (h !! l))
  | _ => true
  end.

Definition is_nullish (v : value) : bool :=
  match v with
  | VUndef | VNull => true
  | _ => false
  end.

(** [v] refers to a plain object. *)
Definition is_object (h : heap) (v : value) : bool :=
  bool_decide (is_Some (obj_of h v)).

(** [v] refers to a todo of the data model: an object whose [id] is a
    number, whose [text] is a string and whose [completed] is a boolean. *)
Definition is_todo (h : heap) (v : value) : bool :=
  match obj_of h v with
  | Some o =>
      match o !! "id", o !! "text", o !! "completed" with
      | Some (VNum _), Some (VStr _), Some (VBool _) => true
      | _, _, _ => false
      end
  | None => false
  end.

(** ** Vocabulary of the statements *)

(** The object [todo] allocates for an ADD_TODO action. *)
Definition new_todo (a : action) : cell :=
  OObj {[ "id" := field a "id"; "text" := field a "text";
          "completed" := VBool false ]}.

(** The fields of the copy [{...state, completed: !state.completed}]. *)
Definition toggled (o : gmap string value) : gmap string value :=
  <["completed" := VBool (negb (to_boolean (prop o "completed")))]> o.

(** What a TOGGLE_TODO action with id [k] does to the fields of a todo. *)
Definition toggle_obj (k : value) (o : gmap string value) : gmap string value :=
  if decide (prop o "id" = k) then toggled o else o.

(** How [todo] relates a prior todo [v] in heap [h] to its result [w] in
    the resulting heap [h'], for a TOGGLE_TODO action with id [k]: either
    the ids differ and the result is [v] itself, or they agree and the
    result is a newly allocated copy with [completed] negated. *)
Definition toggle_rel (k : value) (h h' : heap) (v w : value) : Prop :=
  exists o, obj_of h v = Some o /\
    ((prop o "id" <> k /\ w = v) \/
     (prop o "id" = k /\
      exists l, w = VRef l /\ (length h <= l)%nat /\
                obj_of h' w = Some (toggled o))).

(** The [completed] field of the todo [v] refers to. *)
Definition completed_of (h : heap) (v : value) : value :=
  match obj_of h v with
  | Some o => prop o "completed"
  | None => VUndef
  end.


(** The application after the events [es], from start-up. *)
Definition run_from_start (es : list event) : result world :=
  match start with
  | Ok w => run w es
  | Throw e => Throw e
  end.

(** [getVisibleTodos(state.todos, state.visibilityFilter)] on the current
    state, as [mapStateToTodoListProps] calls it. *)
Definition visible_todos (w : world) : result (heap * value) :=
  (ts <- get_prop (w_state w) "todos" ;;
   f <- get_prop (w_state w) "visibilityFilter" ;;
   getVisibleTodos ts f) (w_heap w).

(** The todos of the current state, as records. *)
Definition state_todos (w : world) : option (list (gmap string value)) :=
  o ← obj_of (w_heap w) (w_state w); read_todos (w_heap w) (prop o "todos").

(** The filter of the current state. *)
Definition state_filter (w : world) : option value :=
  o ← obj_of (w_heap w) (w_state w); Some (prop o "visibilityFilter").



(** A sample heap: two todos and the array holding them. *)
Definition two_todos : heap :=
  [OObj {[ "id" := VNum 0; "text" := VStr "buy milk"; "completed" := VBool true ]};
   OObj {[ "id" := VNum 1; "text" := VStr "walk dog"; "completed" := VBool false ]};
   OArr [VRef 0%nat; VRef 1%nat]].

(** ** View bindings *)

(** [mapStateToLinkProps]: whether a [FilterLink] is the active one.  The
    props record [ownProps] is only read, so, like an action, it is passed
    by value. *)
Definition mapStateToLinkProps (state : value) (ownProps : gmap string value)
    : M value :=
  f <- get_prop state "visibilityFilter" ;;
  new (OObj {[ "active" := VBool (strict_eq (field ownProps "filter") f) ]}).

(** The [filter] props of the three [FilterLink]s of [Footer], in order. *)
Definition footer_filters : list string :=
  ["SHOW_ALL"; "SHOW_ACTIVE"; "SHOW_COMPLETED"].

(** [mapStateToTodoListProps]: the props of [TodoList]. *)
Definition mapStateToTodoListProps (state : value) : M value :=
  ts <- get_prop state "todos" ;;
  f <- get_prop state "visibilityFilter" ;;
  v <- getVisibleTodos ts f ;;
  new (OObj {[ "todos" := v ]}).

(** ** The application on plain records *)

(** A todo as a record of the data model, and the application as a list of
    them, a filter and the counter: what the heap and the store hold, read
    as plain data. *)
Record item := Item {
  i_id : Z;
  i_text : string;
  i_completed : bool
}.

Record app := App {
  a_todos : list item;
  a_filter : string;
  a_next : Z
}.

Definition item_obj (t : item) : gmap string value :=
  {[ "id" := VNum (i_id t); "text" := VStr (i_text t);
     "completed" := VBool (i_completed t) ]}.

Definition item_toggle (id : value) (t : item) : item :=
  if decide (VNum (i_id t) = id)
  then Item (i_id t) (i_text t) (negb (i_completed t))
  else t.

(** What each user event does, on plain records. *)
Definition app_step (s : app) (e : event) : app :=
  match e with
  | AddTodoClick text =>
      App (a_todos s ++ [Item (a_next s) text false]) (a_filter s) (a_next s + 1)
  | TodoClick id => App (item_toggle id <$> a_todos s) (a_filter s) (a_next s)
  | FilterLinkClick f => App (a_todos s) f (a_next s)
  end.

Definition app_init : app := App [] "SHOW_ALL" 0.

Definition app_run (es : list event) : app := fold_left app_step es app_init.

(** The todos shown for a filter of the enumeration. *)
Definition app_visible (s : app) : list item :=
  if decide (a_filter s = "SHOW_COMPLETED")
  then filter (fun t => i_completed t = true) (a_todos s)
  else if decide (a_filter s = "SHOW_ACTIVE")
  then filter (fun t => i_completed t = false) (a_todos s)
  else a_todos s.

(** The running application [w] holds the plain data [s]. *)
Definition represents (w : world) (s : app) : Prop :=
  w_nextTodoId w = a_next s /\
  state_todos w = Some (item_obj <$> a_todos s) /\
  state_filter w = Some (VStr (a_filter s)).

(** The texts typed into [AddTodo], and the filters clicked, in order. *)
Definition added_texts (es : list event) : list string :=
  omap (fun e => match e with AddTodoClick t => Some t | _ => None end) es.

Definition clicked_filters (es : list event) : list string :=
  omap (fun e => match e with FilterLinkClick f => Some f | _ => None end) es.

(** The [id]s of a list of records. *)
Definition ids_of (os : list (gmap string value)) : list value :=
  (fun o => prop o "id") <$> os.

(** A todo, as a record, after a double toggle: [completed] has become its
    own truthiness. *)
Definition normalized (o : gmap string value) : gmap string value :=
  <["completed" := VBool (to_boolean (prop o "completed"))]> o.

(** * Properties *)

(** ** The model on small inputs *)

Example todo_add_example :
  todo VUndef (addTodo (VStr "buy milk") 0).1 [] =
  Ok ([OObj {[ "id" := VNum 0; "text" := VStr "buy milk";
               "completed" := VBool false ]}], VRef 0%nat).
Proof. reflexivity. Qed.

Example todo_toggle_example :
  todo (VRef 1%nat) (toggleTodo (VNum 1)) two_todos =
  Ok (two_todos ++
        [OObj {[ "id" := VNum 1; "text" := VStr "walk dog";
                 "completed" := VBool true ]}], VRef 3%nat).
Proof. vm_compute. reflexivity. Qed.

Example todos_toggle_example :
  todos (VRef 2%nat) (toggleTodo (VNum 1)) two_todos =
  Ok (two_todos ++
        [OObj {[ "id" := VNum 1; "text" := VStr "walk dog";
                 "completed" := VBool true ]};
         OArr [VRef 0%nat; VRef 3%nat]], VRef 4%nat).
Proof. vm_compute. reflexivity. Qed.

Example spread_string_example :
  spread_props (VStr "ab") [] = Ok ([], {[ "0" := VStr "a"; "1" := VStr "b" ]}).
Proof. vm_compute. reflexivity. Qed.

Example createStore_example :
  createStore todoApp [] =
  Ok ([OArr [];
       OObj {[ "todos" := VRef 0%nat; "visibilityFilter" := VStr "SHOW_ALL" ]}],
      VRef 1%nat).
Proof. vm_compute. reflexivity. Qed.

(** ** Basic facts *)

Lemma strict_eq_true v w : strict_eq v w = true <-> v = w.
Proof. unfold strict_eq. apply bool_decide_eq_true. Qed.

Lemma strict_eq_false v w : strict_eq v w = false <-> v <> w.
Proof. unfold strict_eq. apply bool_decide_eq_false. Qed.

Lemma strict_eq_refl v : strict_eq v v = true.
Proof. by apply strict_eq_true. Qed.

Lemma strict_eq_ne v w : v <> w -> strict_eq v w = false.
Proof. apply strict_eq_false. Qed.

Lemma bind_ok {A B} (m : M A) (k : A -> M B) h h' a :
  m h = Ok (h', a) -> (x <- m ;; k x) h = k a h'.
Proof. unfold bind. by intros ->. Qed.

Lemma bind_throw {A B} (m : M A) (k : A -> M B) h e :
  m h = Throw e -> (x <- m ;; k x) h = Throw e.
Proof. unfold bind. by intros ->. Qed.

Lemma lookup_heap_app (h h' : heap) l c :
  h !! l = Some c -> (h ++ h') !! l = Some c.
Proof. apply lookup_app_l_Some. Qed.

Lemma lookup_heap_new (h : heap) c : (h ++ [c]) !! length h = Some c.
Proof. by rewrite list_lookup_middle. Qed.

Lemma obj_of_app h h' v o : obj_of h v = Some o -> obj_of (h ++ h') v = Some o.
Proof.
  destruct v as [| | | | |l]; try done. unfold obj_of.
  destruct (h !! l) as [c|] eqn:E; [|done].
  by rewrite (lookup_heap_app _ h' _ _ E).
Qed.

Lemma arr_of_app h h' v vs : arr_of h v = Some vs -> arr_of (h ++ h') v = Some vs.
Proof.
  destruct v as [| | | | |l]; try done. unfold arr_of.
  destruct (h !! l) as [c|] eqn:E; [|done].
  by rewrite (lookup_heap_app _ h' _ _ E).
Qed.

Lemma arr_of_ref h v vs :
  arr_of h v = Some vs -> exists l, v = VRef l /\ (l < length h)%nat.
Proof.
  destruct v as [| | | | |l]; try done. unfold arr_of.
  destruct (h !! l) as [c|] eqn:E; [|done]. intros _.
  exists l. split; [done|]. by eapply lookup_lt_Some.
Qed.

Lemma is_object_obj_of h v : is_object h v = true <-> exists o, obj_of h v = Some o.
Proof. unfold is_object. by rewrite bool_decide_eq_true. Qed.

Lemma get_prop_obj h v o k :
  obj_of h v = Some o -> get_prop v k h = Ok (h, prop o k).
Proof.
  destruct v as [| | | | |l]; simpl; try done.
  destruct (h !! l) as [[o'|]|]; try done. by intros [= ->].
Qed.

Lemma spread_props_obj h v o :
  obj_of h v = Some o -> spread_props v h = Ok (h, o).
Proof.
  destruct v as [| | | | |l]; simpl; try done.
  destruct (h !! l) as [[o'|]|]; try done. by intros [= ->].
Qed.

(** ** The [todo] reducer, case by case *)

Lemma todo_add h s a :
  field a "type" = VStr "ADD_TODO" ->
  todo s a h = Ok (h ++ [new_todo a], VRef (length h)).
Proof. intros Ht. unfold todo. by rewrite Ht. Qed.

Lemma todo_other h s a :
  field a "type" <> VStr "ADD_TODO" ->
  field a "type" <> VStr "TOGGLE_TODO" ->
  todo s a h = Ok (h, s).
Proof.
  intros H1 H2. unfold todo.
  by rewrite (strict_eq_ne _ _ H1), (strict_eq_ne _ _ H2).
Qed.

(** ** Adding a todo *)

Lemma todos_add h prior vs a :
  arr_of h prior = Some vs ->
  field a "type" = VStr "ADD_TODO" ->
  todos prior a h =
    Ok (h ++ [new_todo a; OArr (vs ++ [VRef (length h)])], VRef (S (length h))).
Proof.
  intros Harr Ht.
  destruct prior as [| | | | |l]; try done. unfold arr_of in Harr.
  destruct (h !! l) as [[|ws]|] eqn:El; try done. injection Harr as ->.
  unfold todos. simpl. unfold bind at 1. unfold ret at 1.
  rewrite Ht. simpl. unfold bind, iterate. rewrite El, (todo_add _ _ _ Ht).
  unfold new. rewrite length_app. simpl.
  rewrite <- app_assoc. simpl. do 3 f_equal. lia.
Qed.

(** C1.  For every prior todo list and every ADD_TODO action, [todos]
    returns a new array (at a fresh location, the prior array being left as
    it was) whose elements are those of the prior array followed by exactly
    one more; that element is a new object [{id, text, completed: false}]
    with the action's [id] and [text], and [todo] builds it whatever prior
    todo it is given. *)
Theorem todos_add_todo (h : heap) (prior : value) (vs : list value) (a : action) :
  arr_of h prior = Some vs ->
  field a "type" = VStr "ADD_TODO" ->
  let t := OObj {[ "id" := field a "id"; "text" := field a "text";
                   "completed" := VBool false ]} in
  let h' := h ++ [t; OArr (vs ++ [VRef (length h)])] in
  let r := VRef (S (length h)) in
  (forall s, todo s a h = Ok (h ++ [t], VRef (length h))) /\
  todos prior a h = Ok (h', r) /\
  r <> prior /\
  arr_of h' r = Some (vs ++ [VRef (length h)]) /\
  h' !! length h = Some t /\
  arr_of h' prior = Some vs.
Proof.
  intros Harr Ht t h' r.
  split; [intros s; by apply todo_add|].
  split; [by apply todos_add|].
  destruct (arr_of_ref _ _ _ Harr) as (l & -> & Hl).
  split; [intros [= <-]; lia|].
  split; [|split].
  - assert (Hh' : h' = (h ++ [t]) ++ [OArr (vs ++ [VRef (length h)])])
      by (unfold h'; by rewrite <- app_assoc).
    unfold arr_of, r. rewrite Hh'.
    replace (S (length h)) with (length (h ++ [t]))
      by (rewrite length_app; simpl; lia).
    by rewrite lookup_heap_new.
  - unfold h'. by rewrite (list_lookup_middle h _ t (length h)).
  - by apply arr_of_app.
Qed.

Lemma todos_add_todo_witness :
  todos (VRef 0%nat)
        {[ "type" := VStr "ADD_TODO"; "id" := VNum 7; "text" := VStr "x" ]}
        [OArr []] =
  Ok ([OArr [];
       OObj {[ "id" := VNum 7; "text" := VStr "x"; "completed" := VBool false ]};
       OArr [VRef 1%nat]], VRef 2%nat).
Proof.
  exact (proj1 (proj2 (todos_add_todo [OArr []] (VRef 0%nat) []
    {[ "type" := VStr "ADD_TODO"; "id" := VNum 7; "text" := VStr "x" ]}
    eq_refl eq_refl))).
Defined.

(** ** The visibility filter *)

(** C3.  [visibilityFilter] treats an absent prior state as SHOW_ALL; for a
    SET_VISIBILITY_FILTER action it returns the action's [filter] as it
    is, whatever value that is; for an action of any other type it returns
    the prior filter.  The heap is not touched. *)
Theorem visibilityFilter_cases (h : heap) (s : value) (a : action) :
  visibilityFilter VUndef a h = visibilityFilter (VStr "SHOW_ALL") a h /\
  (forall f : value, visibilityFilter s (setVisibilityFilter f) h = Ok (h, f)) /\
  (field a "type" = VStr "SET_VISIBILITY_FILTER" ->
   visibilityFilter s a h = Ok (h, field a "filter")) /\
  (field a "type" <> VStr "SET_VISIBILITY_FILTER" -> s <> VUndef ->
   visibilityFilter s a h = Ok (h, s)).
Proof.
  split; [reflexivity|]. split; [|split].
  - intros f. unfold visibilityFilter. destruct (strict_eq s VUndef); reflexivity.
  - intros Ht. unfold visibilityFilter. by rewrite Ht.
  - intros Ht Hs. unfold visibilityFilter.
    by rewrite (strict_eq_ne _ _ Ht), (strict_eq_ne _ _ Hs).
Qed.

Lemma visibilityFilter_cases_witness :
  visibilityFilter (VStr "SHOW_ACTIVE") (toggleTodo (VNum 0)) [] =
    Ok ([], VStr "SHOW_ACTIVE") /\
  visibilityFilter (VStr "SHOW_ACTIVE")
                   (setVisibilityFilter (VStr "SHOW_EVERYTHING")) [] =
    Ok ([], VStr "SHOW_EVERYTHING").
Proof.
  split.
  - apply (visibilityFilter_cases [] (VStr "SHOW_ACTIVE") (toggleTodo (VNum 0)));
      [vm_compute; discriminate | discriminate].
  - apply (visibilityFilter_cases [] (VStr "SHOW_ACTIVE") (toggleTodo (VNum 0))).
Defined.

(** ** The selector on an unrecognized filter *)

(** C10.  For every filter value other than the three of the enumeration,
    [getVisibleTodos] falls out of its switch and returns [undefined],
    whatever the todos are; it neither throws nor behaves as for
    SHOW_ALL. *)
Theorem getVisibleTodos_unknown_filter (h : heap) (ts f : value) :
  f <> VStr "SHOW_ALL" -> f <> VStr "SHOW_COMPLETED" -> f <> VStr "SHOW_ACTIVE" ->
  getVisibleTodos ts f h = Ok (h, VUndef).
Proof.
  intros H1 H2 H3. unfold getVisibleTodos.
  by rewrite (strict_eq_ne _ _ H1), (strict_eq_ne _ _ H2),
    (strict_eq_ne _ _ H3).
Qed.

Lemma getVisibleTodos_unknown_filter_witness :
  getVisibleTodos (VRef 0%nat) (VStr "SHOW_NONE") [OArr []] =
    Ok ([OArr []], VUndef).
Proof.
  apply (getVisibleTodos_unknown_filter [OArr []] (VRef 0%nat) (VStr "SHOW_NONE"));
    discriminate.
Defined.

(** ** Totality of [todo] *)

Lemma get_prop_present h v k :
  in_heap h v = true -> is_nullish v = false ->
  exists x, get_prop v k h = Ok (h, x).
Proof.
  destruct v as [| | | | |l]; simpl; try done; eauto.
  intros [c Hc]%bool_decide_eq_true _. rewrite Hc. destruct c; eauto.
Qed.

Lemma spread_props_in_heap h v :
  in_heap h v = true -> exists o, spread_props v h = Ok (h, o).
Proof.
  destruct v as [| | | | |l]; simpl; eauto.
  intros [c Hc]%bool_decide_eq_true. rewrite Hc. destruct c; eauto.
Qed.

Lemma get_prop_nullish h v k :
  is_nullish v = true -> get_prop v k h = Throw TypeError.
Proof. by destruct v. Qed.

(** C7, as stated, fails: with an absent prior todo and a TOGGLE_TODO
    action the reducer reads [state.id] of [undefined] and throws. *)
Lemma todo_throws_on_absent_prior :
  todo VUndef (toggleTodo (VNum 0)) [] = Throw TypeError /\
  ~ (forall (s : value) (a : action) (h : heap), exists r, todo s a h = Ok r).
Proof.
  split; [reflexivity|].
  intros H. destruct (H VUndef (toggleTodo (VNum 0)) []) as [r Hr].
  vm_compute in Hr. discriminate.
Qed.

(** C7, amended.  [todo] returns without throwing for every action record
    when the prior todo is neither [undefined] nor [null], and for every
    prior state when the action's type is not TOGGLE_TODO; for an
    [undefined] or [null] prior todo and a TOGGLE_TODO action it throws a
    TypeError. *)
Theorem todo_total_on_present (h : heap) (s : value) (a : action) :
  in_heap h s = true ->
  (is_nullish s = false \/ field a "type" <> VStr "TOGGLE_TODO" ->
   exists h' v, todo s a h = Ok (h', v)) /\
  (is_nullish s = true -> field a "type" = VStr "TOGGLE_TODO" ->
   todo s a h = Throw TypeError).
Proof.
  intros Hs. split.
  - intros Hcase. unfold todo.
    destruct (strict_eq (field a "type") (VStr "ADD_TODO")); [unfold new; eauto|].
    destruct (strict_eq (field a "type") (VStr "TOGGLE_TODO")) eqn:Et;
      [|unfold ret; eauto].
    apply strict_eq_true in Et.
    destruct Hcase as [Hn|Hn]; [|done].
    destruct (get_prop_present h s "id" Hs Hn) as [x Hx].
    rewrite (bind_ok _ _ _ _ _ Hx).
    destruct (negb (strict_eq x (field a "id"))); [unfold ret; eauto|].
    destruct (spread_props_in_heap h s Hs) as [o Ho].
    rewrite (bind_ok _ _ _ _ _ Ho).
    destruct (get_prop_present h s "completed" Hs Hn) as [c Hc].
    rewrite (bind_ok _ _ _ _ _ Hc). unfold new. eauto.
  - intros Hn Ht. unfold todo. rewrite Ht. simpl.
    by rewrite (bind_throw _ _ _ _ (get_prop_nullish h s "id" Hn)).
Qed.

Lemma todo_total_on_present_witness :
  (exists h' v,
     todo (VRef 0%nat) (toggleTodo (VNum 0)) [OObj {[ "id" := VNum 0 ]}] =
     Ok (h', v)) /\
  todo VNull (toggleTodo (VNum 0)) [] = Throw TypeError.
Proof.
  split.
  - apply (todo_total_on_present [OObj {[ "id" := VNum 0 ]}] (VRef 0%nat)
             (toggleTodo (VNum 0)) eq_refl).
    left. reflexivity.
  - apply (todo_total_on_present [] VNull (toggleTodo (VNum 0)) eq_refl);
      reflexivity.
Defined.

(** ** Unrecognized actions *)

Lemma todos_other h s a :
  field a "type" <> VStr "ADD_TODO" -> field a "type" <> VStr "TOGGLE_TODO" ->
  s <> VUndef -> todos s a h = Ok (h, s).
Proof.
  intros H1 H2 Hs. unfold todos.
  rewrite (strict_eq_ne _ _ Hs). unfold bind at 1, ret at 1.
  by rewrite (strict_eq_ne _ _ H1), (strict_eq_ne _ _ H2).
Qed.

Lemma visibilityFilter_other h s a :
  field a "type" <> VStr "SET_VISIBILITY_FILTER" ->
  s <> VUndef -> visibilityFilter s a h = Ok (h, s).
Proof.
  intros Ht Hs. unfold visibilityFilter.
  by rewrite (strict_eq_ne _ _ Ht), (strict_eq_ne _ _ Hs).
Qed.

(** C6.  For an action whose type is none of ADD_TODO, TOGGLE_TODO and
    SET_VISIBILITY_FILTER, each leaf reducer returns the prior slice it was
    given, the very same value (for [todos], the same array reference),
    without touching the heap; an absent prior slice is first replaced by
    the reducer's default, which is then what is returned.  So the root
    reducer, and with it [dispatch], returns the prior state object
    itself. *)
Theorem unknown_action_identity (h : heap) (a : action) :
  field a "type" <> VStr "ADD_TODO" ->
  field a "type" <> VStr "TOGGLE_TODO" ->
  field a "type" <> VStr "SET_VISIBILITY_FILTER" ->
  (forall s, s <> VUndef -> todos s a h = Ok (h, s)) /\
  (forall s, s <> VUndef -> visibilityFilter s a h = Ok (h, s)) /\
  todos VUndef a h = Ok (h ++ [OArr []], VRef (length h)) /\
  visibilityFilter VUndef a h = Ok (h, VStr "SHOW_ALL") /\
  (forall s o,
     obj_of h s = Some o ->
     prop o "todos" <> VUndef -> prop o "visibilityFilter" <> VUndef ->
     todoApp s a h = Ok (h, s) /\
     (field a "type" <> VUndef -> dispatch todoApp a s h = Ok (h, s))).
Proof.
  intros H1 H2 H3.
  split; [intros s Hs; by apply todos_other|].
  split; [intros s Hs; by apply visibilityFilter_other|].
  split.
  { unfold todos. simpl. unfold bind, new.
    by rewrite (strict_eq_ne _ _ H1), (strict_eq_ne _ _ H2). }
  split.
  { unfold visibilityFilter. simpl.
    by rewrite (strict_eq_ne _ _ H3). }
  intros s o Ho Ht Hv.
  assert (Hs : strict_eq s VUndef = false).
  { apply strict_eq_false. intros ->. discriminate. }
  assert (Happ : todoApp s a h = Ok (h, s)).
  { unfold todoApp, combineReducers. simpl map_each. rewrite Hs. simpl.
    unfold bind.
    rewrite (get_prop_obj _ _ _ "todos" Ho).
    rewrite (todos_other _ _ _ H1 H2 Ht).
    rewrite (strict_eq_ne _ _ Ht). unfold ret at 1.
    rewrite (get_prop_obj _ _ _ "visibilityFilter" Ho).
    rewrite (visibilityFilter_other _ _ _ H3 Hv).
    rewrite (strict_eq_ne _ _ Hv). unfold ret. simpl.
    by rewrite !strict_eq_refl. }
  split; [done|].
  intros Hty. unfold dispatch.
  by rewrite (strict_eq_ne _ _ Hty).
Qed.

Lemma unknown_action_identity_witness :
  dispatch todoApp {[ "type" := VStr "UNKNOWN" ]} (VRef 1%nat)
    [OArr []; OObj {[ "todos" := VRef 0%nat;
                      "visibilityFilter" := VStr "SHOW_ALL" ]}] =
  Ok ([OArr []; OObj {[ "todos" := VRef 0%nat;
                        "visibilityFilter" := VStr "SHOW_ALL" ]}], VRef 1%nat).
Proof.
  refine (proj2 (proj2 (proj2 (proj2 (proj2 (unknown_action_identity
    [OArr []; OObj {[ "todos" := VRef 0%nat;
                      "visibilityFilter" := VStr "SHOW_ALL" ]}]
    {[ "type" := VStr "UNKNOWN" ]} _ _ _)))) (VRef 1%nat) _ eq_refl _ _) _);
    vm_compute; discriminate.
Defined.

(** ** Toggling a todo *)

Lemma toggled_id o : prop (toggled o) "id" = prop o "id".
Proof. unfold prop, toggled. by rewrite lookup_insert_ne. Qed.

Lemma toggled_text o : prop (toggled o) "text" = prop o "text".
Proof. unfold prop, toggled. by rewrite lookup_insert_ne. Qed.

Lemma toggled_completed o :
  prop (toggled o) "completed" = VBool (negb (to_boolean (prop o "completed"))).
Proof. unfold prop at 1, toggled. by rewrite lookup_insert_eq. Qed.

Lemma forallb_Forall_true {A} (f : A -> bool) (xs : list A) :
  forallb f xs = true <-> Forall (fun x => f x = true) xs.
Proof. rewrite forallb_forall, Forall_forall. by setoid_rewrite list_elem_of_In. Qed.

Lemma is_object_app h h' v : is_object h v = true -> is_object (h ++ h') v = true.
Proof.
  intros [o Ho]%is_object_obj_of. apply is_object_obj_of.
  exists o. by apply obj_of_app.
Qed.

(** [toggle_rel] only looks at the cells it names: the resulting heap may
    grow, and the prior heap may be cut back to any prefix that holds the
    prior todo. *)
Lemma toggle_rel_later k h h' h'' v w :
  toggle_rel k h h' v w -> toggle_rel k h (h' ++ h'') v w.
Proof.
  intros (o & Ho & Hcase). exists o. split; [done|].
  destruct Hcase as [?|[Heq (l & -> & Hl & Hobj)]]; [by left|right].
  split; [done|]. exists l. repeat split; try done. by apply obj_of_app.
Qed.

Lemma toggle_rel_earlier k h0 h h' v w :
  is_object h0 v = true ->
  toggle_rel k (h0 ++ h) h' v w -> toggle_rel k h0 h' v w.
Proof.
  intros [o0 Ho0]%is_object_obj_of (o & Ho & Hcase).
  rewrite (obj_of_app _ h _ _ Ho0) in Ho. injection Ho as <-.
  exists o0. split; [done|].
  destruct Hcase as [[Hne ->]|[Heq (l & -> & Hl & Hobj)]]; [by left|right].
  split; [done|]. exists l. split; [done|].
  split; [rewrite length_app in Hl; lia|done].
Qed.

Lemma toggle_rel_earlier_all k h0 h h' vs ws :
  Forall (fun v => is_object h0 v = true) vs ->
  Forall2 (toggle_rel k (h0 ++ h) h') vs ws ->
  Forall2 (toggle_rel k h0 h') vs ws.
Proof.
  intros Hall Hrel. revert Hall.
  induction Hrel as [|v w vs ws Hvw _ IH]; [constructor|].
  intros [Hv Hvs]%Forall_cons.
  constructor; [by eapply toggle_rel_earlier|by apply IH].
Qed.

Section toggle.
(** A TOGGLE_TODO action, whatever its [id] is. *)
Context (a : action) (Ht : field a "type" = VStr "TOGGLE_TODO").

Lemma todo_toggle_miss h s o :
  obj_of h s = Some o -> prop o "id" <> field a "id" ->
  todo s a h = Ok (h, s).
Proof.
  intros Ho Hid. unfold todo. rewrite Ht. simpl.
  rewrite (bind_ok _ _ _ _ _ (get_prop_obj _ _ _ "id" Ho)).
  by rewrite (strict_eq_ne _ _ Hid).
Qed.

Lemma todo_toggle_hit h s o :
  obj_of h s = Some o -> prop o "id" = field a "id" ->
  todo s a h = Ok (h ++ [OObj (toggled o)], VRef (length h)).
Proof.
  intros Ho Hid. unfold todo. rewrite Ht. simpl.
  rewrite (bind_ok _ _ _ _ _ (get_prop_obj _ _ _ "id" Ho)).
  rewrite Hid, strict_eq_refl. simpl.
  rewrite (bind_ok _ _ _ _ _ (spread_props_obj _ _ _ Ho)).
  by rewrite (bind_ok _ _ _ _ _ (get_prop_obj _ _ _ "completed" Ho)).
Qed.

Lemma todo_toggle_rel h v :
  is_object h v = true ->
  exists h1 w, todo v a h = Ok (h ++ h1, w) /\
               toggle_rel (field a "id") h (h ++ h1) v w.
Proof.
  intros [o Ho]%is_object_obj_of.
  destruct (decide (prop o "id" = field a "id")) as [Heq|Hne].
  - exists [OObj (toggled o)], (VRef (length h)).
    split; [by apply todo_toggle_hit|].
    exists o. split; [done|]. right. split; [done|].
    exists (length h). split; [done|]. split; [lia|].
    unfold obj_of. by rewrite lookup_heap_new.
  - exists [], v. rewrite app_nil_r.
    split; [by eapply todo_toggle_miss|].
    exists o. split; [done|]. by left.
Qed.

(** [state.map(t => todo(t, action))], by induction on the elements; the
    heap grows by the copies of the todos that were hit. *)
Lemma map_each_toggle vs : forall h,
  Forall (fun v => is_object h v = true) vs ->
  exists h2 ws, map_each (fun t => todo t a) vs h = Ok (h ++ h2, ws) /\
                Forall2 (toggle_rel (field a "id") h (h ++ h2)) vs ws.
Proof.
  induction vs as [|v vs IH]; intros h Hall.
  - exists [], []. rewrite app_nil_r. by split; [|constructor].
  - apply Forall_cons in Hall as [Hv Hvs].
    destruct (todo_toggle_rel h v Hv) as (h1 & w & Hw & Hrel).
    destruct (IH (h ++ h1)) as (h2 & ws & Hws & Hrels).
    { eapply Forall_impl; [exact Hvs|]. intros x. apply is_object_app. }
    exists (h1 ++ h2), (w :: ws). split.
    + simpl. rewrite (bind_ok _ _ _ _ _ Hw), (bind_ok _ _ _ _ _ Hws).
      by rewrite app_assoc.
    + rewrite app_assoc. constructor.
      * by apply toggle_rel_later.
      * by eapply toggle_rel_earlier_all.
Qed.

Lemma todos_toggle h prior vs :
  arr_of h prior = Some vs ->
  Forall (fun v => is_object h v = true) vs ->
  exists h2 ws,
    todos prior a h = Ok ((h ++ h2) ++ [OArr ws], VRef (length (h ++ h2))) /\
    Forall2 (toggle_rel (field a "id") h (h ++ h2)) vs ws.
Proof.
  intros Harr Hall.
  destruct (map_each_toggle vs h Hall) as (h2 & ws & Hmap & Hrel).
  exists h2, ws. split; [|done].
  destruct prior as [| | | | |l]; try done. unfold arr_of in Harr.
  destruct (h !! l) as [[|xs]|] eqn:El; try done. injection Harr as ->.
  unfold todos. simpl. unfold bind at 1, ret at 1. rewrite Ht. simpl.
  unfold array_map. unfold bind at 1. unfold array_elems. rewrite El.
  by rewrite (bind_ok _ _ _ _ _ Hmap).
Qed.
End toggle.

(** C2.  For every todo list and every TOGGLE_TODO action with id [k],
    [todos] returns a new array of the same length in which, position by
    position, a todo whose id differs from [k] is the very same reference
    as before, and a todo whose id equals [k] is a newly allocated object
    equal to the old one except for [completed], which is negated ([id] and
    [text] are those of the old one).  Every cell of the prior heap is left
    as it was. *)
Theorem todos_toggle_sharing (h : heap) (prior : value) (vs : list value)
    (a : action) :
  arr_of h prior = Some vs ->
  forallb (is_object h) vs = true ->
  field a "type" = VStr "TOGGLE_TODO" ->
  exists (h2 : heap) (r : loc) (ws : list value),
    todos prior a h = Ok (h ++ h2, VRef r) /\
    (length h <= r)%nat /\
    arr_of (h ++ h2) (VRef r) = Some ws /\
    length ws = length vs /\
    forall (i : nat) (v : value) (o : gmap string value),
      vs !! i = Some v -> obj_of h v = Some o ->
      (prop o "id" <> field a "id" -> ws !! i = Some v) /\
      (prop o "id" = field a "id" ->
       exists (l : loc) (o' : gmap string value),
         ws !! i = Some (VRef l) /\ (length h <= l)%nat /\
         obj_of (h ++ h2) (VRef l) = Some o' /\
         o' = <["completed" := VBool (negb (to_boolean (prop o "completed")))]> o /\
         prop o' "id" = prop o "id" /\ prop o' "text" = prop o "text" /\
         prop o' "completed" = VBool (negb (to_boolean (prop o "completed")))).
Proof.
  intros Harr Hall%forallb_Forall_true Ht.
  destruct (todos_toggle a Ht h prior vs Harr Hall) as (h2 & ws & Hrun & Hrel).
  exists (h2 ++ [OArr ws]), (length (h ++ h2)), ws.
  rewrite app_assoc. split; [done|].
  split; [rewrite length_app; lia|].
  split; [unfold arr_of; by rewrite lookup_heap_new|].
  split; [symmetry; by eapply Forall2_length|].
  intros i v o Hi Ho.
  destruct (Forall2_lookup_l _ _ _ _ _ Hrel Hi) as (w & Hw & o0 & Ho0 & Hcase).
  rewrite Ho in Ho0. injection Ho0 as <-.
  split; intros Hid.
  - destruct Hcase as [[_ ->]|[Heq _]]; done.
  - destruct Hcase as [[Hne _]|[_ (l & -> & Hl & Hobj)]]; [done|].
    exists l, (toggled o). split; [done|]. split; [done|].
    split; [by apply obj_of_app|]. split; [done|].
    by rewrite toggled_id, toggled_text, toggled_completed.
Qed.

Lemma todos_toggle_sharing_witness :
  exists (h2 : heap) (r : loc) (ws : list value),
    todos (VRef 2%nat) (toggleTodo (VNum 1)) two_todos =
      Ok (two_todos ++ h2, VRef r) /\
    ws !! 0%nat = Some (VRef 0%nat).
Proof.
  destruct (todos_toggle_sharing two_todos (VRef 2%nat) [VRef 0%nat; VRef 1%nat]
              (toggleTodo (VNum 1)) eq_refl eq_refl eq_refl)
    as (h2 & r & ws & Hrun & _ & _ & _ & Hshare).
  exists h2, r, ws. split; [exact Hrun|].
  apply (Hshare 0%nat (VRef 0%nat) _ eq_refl eq_refl). vm_compute. discriminate.
Defined.

(** ** The selector *)

Lemma is_todo_completed h v :
  is_todo h v = true ->
  exists o b, obj_of h v = Some o /\ prop o "completed" = VBool b.
Proof.
  unfold is_todo. destruct (obj_of h v) as [o|] eqn:Ho; [|done].
  unfold prop.
  destruct (o !! "id") as [[]|]; try done.
  destruct (o !! "text") as [[]|]; try done.
  destruct (o !! "completed") as [[| |b| | |]|] eqn:Ec; try done.
  intros _. exists o, b. by rewrite Ec.
Qed.

Lemma filter_each_completed h vs :
  Forall (fun v => is_todo h v = true) vs ->
  filter_each (fun t => get_prop t "completed") vs h =
    Ok (h, filter (fun v => completed_of h v = VBool true) vs).
Proof.
  induction 1 as [|v vs Hv _ IH]; [done|].
  destruct (is_todo_completed h v Hv) as (o & b & Ho & Hb).
  simpl. rewrite (bind_ok _ _ _ _ _ (get_prop_obj _ _ _ "completed" Ho)).
  rewrite (bind_ok _ _ _ _ _ IH). unfold ret. rewrite filter_cons.
  unfold completed_of. rewrite Ho, Hb. simpl.
  destruct b; by case_decide.
Qed.

Lemma filter_each_active h vs :
  Forall (fun v => is_todo h v = true) vs ->
  filter_each (fun t => c <- get_prop t "completed" ;;
                        ret (VBool (negb (to_boolean c)))) vs h =
    Ok (h, filter (fun v => completed_of h v = VBool false) vs).
Proof.
  induction 1 as [|v vs Hv _ IH]; [done|].
  destruct (is_todo_completed h v Hv) as (o & b & Ho & Hb).
  simpl.
  rewrite (bind_ok _ (fun keep => _) h h (VBool (negb b))).
  2:{ rewrite (bind_ok _ _ _ _ _ (get_prop_obj _ _ _ "completed" Ho)).
      by rewrite Hb. }
  rewrite (bind_ok _ _ _ _ _ IH). unfold ret. rewrite filter_cons.
  unfold completed_of. rewrite Ho, Hb. simpl.
  destruct b; by case_decide.
Qed.

(** C4.  For every todo list, [getVisibleTodos] returns the input array
    itself for SHOW_ALL; for SHOW_COMPLETED a new array holding, in the
    original order, exactly the todos whose [completed] is [true]; for
    SHOW_ACTIVE a new array holding, in the original order, exactly the
    todos whose [completed] is [false].  No cell of the prior heap is
    changed: the heap stays as it was for SHOW_ALL and is extended by the
    result array alone otherwise. *)
Theorem getVisibleTodos_cases (h : heap) (ts : value) (vs : list value) :
  arr_of h ts = Some vs ->
  forallb (is_todo h) vs = true ->
  getVisibleTodos ts (VStr "SHOW_ALL") h = Ok (h, ts) /\
  getVisibleTodos ts (VStr "SHOW_COMPLETED") h =
    Ok (h ++ [OArr (filter (fun v => completed_of h v = VBool true) vs)],
        VRef (length h)) /\
  getVisibleTodos ts (VStr "SHOW_ACTIVE") h =
    Ok (h ++ [OArr (filter (fun v => completed_of h v = VBool false) vs)],
        VRef (length h)).
Proof.
  intros Harr Hall%forallb_Forall_true.
  split; [reflexivity|].
  destruct ts as [| | | | |l]; try done. unfold arr_of in Harr.
  destruct (h !! l) as [[|xs]|] eqn:El; try done. injection Harr as ->.
  split.
  - unfold getVisibleTodos. simpl. unfold array_filter, bind at 1, array_elems.
    rewrite El. by rewrite (bind_ok _ _ _ _ _ (filter_each_completed h vs Hall)).
  - unfold getVisibleTodos. simpl. unfold array_filter, bind at 1, array_elems.
    rewrite El. by rewrite (bind_ok _ _ _ _ _ (filter_each_active h vs Hall)).
Qed.

Lemma getVisibleTodos_cases_witness :
  getVisibleTodos (VRef 2%nat) (VStr "SHOW_COMPLETED") two_todos =
    Ok (two_todos ++ [OArr [VRef 0%nat]], VRef 3%nat) /\
  getVisibleTodos (VRef 2%nat) (VStr "SHOW_ACTIVE") two_todos =
    Ok (two_todos ++ [OArr [VRef 1%nat]], VRef 3%nat).
Proof.
  exact (proj2 (getVisibleTodos_cases two_todos (VRef 2%nat)
                  [VRef 0%nat; VRef 1%nat] eq_refl eq_refl)).
Defined.

(** ** Toggling twice *)

Lemma toggle_obj_twice k o b :
  prop o "completed" = VBool b -> toggle_obj k (toggle_obj k o) = o.
Proof.
  intros Hb. unfold toggle_obj.
  destruct (decide (prop o "id" = k)) as [Hk|Hk].
  - rewrite toggled_id. rewrite decide_True by done.
    unfold toggled at 1. rewrite toggled_completed, Hb. simpl.
    unfold toggled. rewrite insert_insert_eq, negb_involutive.
    apply insert_id. unfold prop in Hb.
    destruct (o !! "completed") as [c|]; [|done]. simpl in Hb. by subst.
  - by rewrite decide_False.
Qed.

Lemma toggle_rel_read k h h2 vs ws :
  Forall2 (toggle_rel k h (h ++ h2)) vs ws ->
  Forall2 (fun v w => exists o, obj_of h v = Some o /\
                                obj_of (h ++ h2) w = Some (toggle_obj k o)) vs ws.
Proof.
  intros Hrel. eapply Forall2_impl; [exact Hrel|].
  intros v w (o & Ho & Hcase). exists o. split; [done|].
  unfold toggle_obj.
  destruct Hcase as [[Hne ->]|[Heq (l & -> & _ & Hobj)]].
  - rewrite decide_False by done. by apply obj_of_app.
  - by rewrite decide_True.
Qed.

Lemma mapM_obj_of h vs os :
  Forall2 (fun v o => obj_of h v = Some o) vs os ->
  mapM (obj_of h) vs = Some os.
Proof. intros. by apply mapM_Some. Qed.

Lemma toggle_twice_read k (h ha hx hb hy : heap) vs ws us :
  Forall (fun v => is_todo h v = true) vs ->
  Forall2 (fun v w => exists o, obj_of h v = Some o /\
                                obj_of (h ++ ha) w = Some (toggle_obj k o)) vs ws ->
  Forall2 (fun w u => exists o,
             obj_of ((h ++ ha) ++ hx) w = Some o /\
             obj_of (((h ++ ha) ++ hx) ++ hb) u = Some (toggle_obj k o)) ws us ->
  exists os,
    Forall2 (fun v o => obj_of h v = Some o) vs os /\
    Forall2 (fun u o => obj_of ((((h ++ ha) ++ hx) ++ hb) ++ hy) u = Some o) us os.
Proof.
  intros Hall Hrel1. revert us Hall.
  induction Hrel1 as [|v w vs' ws' (o & Ho & Hw) _ IH]; intros us Hall Hrel2.
  - apply Forall2_nil_inv_l in Hrel2 as ->. exists []. by split; constructor.
  - apply Forall2_cons_inv_l in Hrel2 as (u & us' & (o1 & Ho1 & Hu) & Hrel2 & ->).
    apply Forall_cons in Hall as [Hv Hall].
    destruct (IH us' Hall Hrel2) as (os & Hos & Hos').
    exists (o :: os). split; [by constructor|]. constructor; [|done].
    destruct (is_todo_completed h v Hv) as (o' & b & Ho' & Hb).
    rewrite Ho in Ho'. injection Ho' as <-.
    rewrite (obj_of_app _ hx _ _ Hw) in Ho1. injection Ho1 as <-.
    rewrite (toggle_obj_twice k o b Hb) in Hu. by apply obj_of_app.
Qed.

(** C9.  For every list of todos of the data model, applying [todos] twice
    with the same TOGGLE_TODO action gives a list that reads, element by
    element and in the same order, as the original one: the same fields
    with the same values.  (The ids need not be distinct for this.) *)
Theorem todos_toggle_twice (h : heap) (prior : value) (vs : list value)
    (a : action) :
  arr_of h prior = Some vs ->
  forallb (is_todo h) vs = true ->
  field a "type" = VStr "TOGGLE_TODO" ->
  exists (h1 h2 : heap) (r1 r2 : value) (os : list (gmap string value)),
    todos prior a h = Ok (h1, r1) /\
    todos r1 a h1 = Ok (h2, r2) /\
    read_todos h prior = Some os /\
    read_todos h2 r2 = Some os.
Proof.
  intros Harr Hall%forallb_Forall_true Ht.
  set (k := field a "id").
  assert (Hobjs : Forall (fun v => is_object h v = true) vs).
  { eapply Forall_impl; [exact Hall|]. simpl. intros v Hv.
    destruct (is_todo_completed h v Hv) as (o & _ & Ho & _).
    apply is_object_obj_of. by exists o. }
  destruct (todos_toggle a Ht h prior vs Harr Hobjs) as (ha & ws & Hrun1 & Hrel1).
  apply toggle_rel_read in Hrel1. fold k in Hrel1.
  set (h1 := (h ++ ha) ++ [OArr ws]) in *.
  set (r1 := VRef (length (h ++ ha))) in *.
  assert (Harr1 : arr_of h1 r1 = Some ws).
  { unfold arr_of, r1, h1. by rewrite lookup_heap_new. }
  assert (Hobjs1 : Forall (fun w => is_object h1 w = true) ws).
  { apply Forall_forall. intros w Hw.
    apply list_elem_of_lookup in Hw as [i Hi].
    destruct (Forall2_lookup_r _ _ _ _ _ Hrel1 Hi) as (v & _ & o & _ & Ho).
    apply is_object_obj_of. exists (toggle_obj k o). by apply obj_of_app. }
  destruct (todos_toggle a Ht h1 r1 ws Harr1 Hobjs1) as (hb & us & Hrun2 & Hrel2).
  apply toggle_rel_read in Hrel2. fold k in Hrel2.
  destruct (toggle_twice_read k h ha [OArr ws] hb [OArr us] vs ws us
              Hall Hrel1 Hrel2) as (os & Hos & Hos').
  exists h1, ((h1 ++ hb) ++ [OArr us]), r1, (VRef (length (h1 ++ hb))), os.
  split; [done|]. split; [done|]. split.
  - unfold read_todos. rewrite Harr. simpl. by apply mapM_obj_of.
  - unfold read_todos, arr_of. rewrite lookup_heap_new. simpl.
    by apply mapM_obj_of.
Qed.

Lemma todos_toggle_twice_witness :
  exists (h1 h2 : heap) (r1 r2 : value) (os : list (gmap string value)),
    todos (VRef 2%nat) (toggleTodo (VNum 1)) two_todos = Ok (h1, r1) /\
    todos r1 (toggleTodo (VNum 1)) h1 = Ok (h2, r2) /\
    read_todos two_todos (VRef 2%nat) = Some os /\
    read_todos h2 r2 = Some os.
Proof.
  exact (todos_toggle_twice two_todos (VRef 2%nat) [VRef 0%nat; VRef 1%nat]
           (toggleTodo (VNum 1)) eq_refl eq_refl eq_refl).
Defined.

(** ** Scenarios *)

(** C5.  From the initial state [{todos: [], visibilityFilter: 'SHOW_ALL'}],
    dispatching addTodo('buy milk'), toggleTodo(0), addTodo('walk dog') and
    setVisibilityFilter('SHOW_COMPLETED') in this order, with the counter
    starting at 0, and then applying [getVisibleTodos] to the state's
    todos and filter yields exactly
    [[{id: 0, text: 'buy milk', completed: true}]].  After the first
    dispatch the todos are [[{id: 0, text: 'buy milk', completed: false}]]
    (scenario A). *)
Theorem scenario_C :
  exists (w0 wA w : world) (h : heap) (v : value),
    start = Ok w0 /\
    state_todos w0 = Some [] /\
    state_filter w0 = Some (VStr "SHOW_ALL") /\
    w_nextTodoId w0 = 0 /\
    run w0 [AddTodoClick "buy milk"] = Ok wA /\
    state_todos wA =
      Some [ {[ "id" := VNum 0; "text" := VStr "buy milk";
                "completed" := VBool false ]} ] /\
    run w0 [AddTodoClick "buy milk"; TodoClick (VNum 0);
            AddTodoClick "walk dog"; FilterLinkClick "SHOW_COMPLETED"] = Ok w /\
    visible_todos w = Ok (h, v) /\
    read_todos h v =
      Some [ {[ "id" := VNum 0; "text" := VStr "buy milk";
                "completed" := VBool true ]} ].
Proof.
  do 5 eexists.
  repeat (split; [vm_compute; reflexivity|]).
  vm_compute. reflexivity.
Qed.

(** ** The id counter *)



(** The state assembled by the root reducer from its two slices. *)
Lemma todoApp_step h hx s o a t' f' :
  obj_of h s = Some o ->
  todos (prop o "todos") a h = Ok (h ++ hx, t') ->
  visibilityFilter (prop o "visibilityFilter") a (h ++ hx) = Ok (h ++ hx, f') ->
  t' <> VUndef -> f' <> VUndef ->
  todoApp s a h =
    if strict_eq t' (prop o "todos") && strict_eq f' (prop o "visibilityFilter")
    then Ok (h ++ hx, s)
    else Ok ((h ++ hx) ++ [OObj {[ "todos" := t'; "visibilityFilter" := f' ]}],
             VRef (length (h ++ hx))).
Proof.
  intros Ho Ht Hf Ht' Hf'.
  assert (Hs : strict_eq s VUndef = false).
  { apply strict_eq_false. intros ->. discriminate. }
  unfold todoApp, combineReducers. simpl map_each. rewrite Hs. simpl.
  unfold bind.
  rewrite (get_prop_obj _ _ _ "todos" Ho), Ht.
  rewrite (strict_eq_ne _ _ Ht'). unfold ret at 1.
  rewrite (get_prop_obj _ _ _ "visibilityFilter" (obj_of_app _ hx _ _ Ho)), Hf.
  rewrite (strict_eq_ne _ _ Hf'). unfold ret. simpl.
  rewrite andb_true_r.
  by destruct (strict_eq t' (prop o "todos") && strict_eq f' (prop o "visibilityFilter")).
Qed.

Lemma Forall2_obj_of_app h hx vs os :
  Forall2 (fun v o' => obj_of h v = Some o') vs os ->
  Forall2 (fun v o' => obj_of (h ++ hx) v = Some o') vs os.
Proof.
  intros H. eapply Forall2_impl; [exact H|]. intros v o'. apply obj_of_app.
Qed.

Lemma Forall2_toggle_objs k h h2 vs ws os :
  Forall2 (fun v o' => obj_of h v = Some o') vs os ->
  Forall2 (toggle_rel k h (h ++ h2)) vs ws ->
  Forall2 (fun w o' => obj_of (h ++ h2) w = Some o') ws (toggle_obj k <$> os).
Proof.
  intros Hos Hrel%toggle_rel_read. revert os Hos.
  induction Hrel as [|v w vs ws (o & Ho & Hw) _ IH]; intros os Hos.
  - apply Forall2_nil_inv_l in Hos as ->. constructor.
  - apply Forall2_cons_inv_l in Hos as (o1 & os' & Ho1 & Hos & ->).
    rewrite Ho in Ho1. injection Ho1 as <-.
    rewrite fmap_cons. constructor; [done|by apply IH].
Qed.

Lemma toggle_obj_id k o : prop (toggle_obj k o) "id" = prop o "id".
Proof. unfold toggle_obj. case_decide; [apply toggled_id|done]. Qed.

Lemma dispatch_in_ok w a n h s :
  field a "type" <> VUndef ->
  todoApp (w_state w) a (w_heap w) = Ok (h, s) ->
  dispatch_in w a n = Ok (World h s n).
Proof.
  intros Ht Happ. unfold dispatch_in, dispatch.
  by rewrite (strict_eq_ne _ _ Ht), Happ.
Qed.









(** * Further properties of the reducers *)

(** ** Reading a list before and after *)

Lemma read_todos_inv h v os :
  read_todos h v = Some os <->
  exists vs, arr_of h v = Some vs /\
             Forall2 (fun x o => obj_of h x = Some o) vs os.
Proof.
  unfold read_todos. destruct (arr_of h v) as [vs|]; simpl.
  - rewrite mapM_Some. split; [by exists vs|]. by intros (? & [= ->] & ?).
  - split; [done|]. by intros (? & ? & _).
Qed.

Lemma read_todos_app h h' v os :
  read_todos h v = Some os -> read_todos (h ++ h') v = Some os.
Proof.
  intros (vs & Harr & Hobjs)%read_todos_inv. apply read_todos_inv.
  exists vs. split; [by apply arr_of_app|by apply Forall2_obj_of_app].
Qed.

Lemma Forall2_obj_is_object h vs os :
  Forall2 (fun x o => obj_of h x = Some o) vs os ->
  Forall (fun x => is_object h x = true) vs.
Proof.
  intros H. apply Forall_forall. intros x [i Hi]%list_elem_of_lookup.
  destruct (Forall2_lookup_l _ _ _ _ _ H Hi) as (o & _ & Ho).
  apply is_object_obj_of. by exists o.
Qed.

Lemma in_heap_app h h' v : in_heap h v = true -> in_heap (h ++ h') v = true.
Proof.
  destruct v as [| | | | |l]; try done. simpl.
  intros [c Hc]%bool_decide_eq_true. apply bool_decide_eq_true.
  exists c. by apply lookup_heap_app.
Qed.

Lemma ids_of_app os os' : ids_of (os ++ os') = ids_of os ++ ids_of os'.
Proof. unfold ids_of. apply fmap_app. Qed.

(** ** TOGGLE_TODO on the records *)

Lemma ids_of_toggle k os : ids_of (toggle_obj k <$> os) = ids_of os.
Proof.
  unfold ids_of. rewrite <- list_fmap_compose. apply list_fmap_ext.
  intros i o _. apply toggle_obj_id.
Qed.

Lemma toggle_obj_comm j k o :
  toggle_obj j (toggle_obj k o) = toggle_obj k (toggle_obj j o).
Proof.
  unfold toggle_obj.
  destruct (decide (prop o "id" = k)) as [Hk|Hk];
    destruct (decide (prop o "id" = j)) as [Hj|Hj];
    rewrite ?toggled_id;
    rewrite ?(decide_True _ _ Hk), ?(decide_True _ _ Hj),
      ?(decide_False _ _ Hk), ?(decide_False _ _ Hj); done.
Qed.

Lemma toggled_toggled o : toggled (toggled o) = normalized o.
Proof.
  unfold toggled at 1. rewrite toggled_completed. simpl.
  unfold toggled, normalized. by rewrite insert_insert_eq, negb_involutive.
Qed.

Lemma toggled_normalized o : toggled (normalized o) = toggled o.
Proof.
  unfold toggled at 1, normalized, prop.
  rewrite lookup_insert_eq. simpl. by rewrite insert_insert_eq.
Qed.

Lemma normalized_id o : prop (normalized o) "id" = prop o "id".
Proof. unfold prop, normalized. by rewrite lookup_insert_ne. Qed.

Section toggle_values.
Context (a : action) (Ht : field a "type" = VStr "TOGGLE_TODO").

(** The list returned for a TOGGLE_TODO action reads as the prior list
    with [toggle_obj] applied to each record; it is a new array. *)
Lemma todos_toggle_read h prior os :
  read_todos h prior = Some os ->
  exists hx r,
    todos prior a h = Ok (h ++ hx, r) /\ r <> prior /\ r <> VUndef /\
    read_todos (h ++ hx) r = Some (toggle_obj (field a "id") <$> os).
Proof.
  intros (vs & Harr & Hobjs)%read_todos_inv.
  destruct (todos_toggle a Ht h prior vs Harr (Forall2_obj_is_object _ _ _ Hobjs))
    as (h2 & ws & Hrun & Hrel).
  destruct (arr_of_ref _ _ _ Harr) as (l & -> & Hl).
  exists (h2 ++ [OArr ws]), (VRef (length (h ++ h2))).
  rewrite app_assoc. split; [done|].
  split; [intros [= Heq]; rewrite length_app in Heq; lia|]. split; [done|].
  apply read_todos_inv. exists ws.
  split; [unfold arr_of; by rewrite lookup_heap_new|].
  apply Forall2_obj_of_app. by eapply Forall2_toggle_objs.
Qed.
End toggle_values.

(** X1.  On any list of objects, whatever their fields, [todos] with a
    TOGGLE_TODO action returns a list that reads as the prior one with
    every record whose [id] is the action's replaced by its copy with
    [completed] negated, and every other record as it was; the ids, in
    order, are those of the prior list, so distinct ids stay distinct. *)
Theorem todos_toggle_values (h : heap) (prior : value)
    (os : list (gmap string value)) (a : action) :
  read_todos h prior = Some os ->
  field a "type" = VStr "TOGGLE_TODO" ->
  exists (h' : heap) (r : value) (os' : list (gmap string value)),
    todos prior a h = Ok (h', r) /\
    read_todos h' r = Some os' /\
    os' = (fun o =>
             if decide (prop o "id" = field a "id")
             then <["completed" := VBool (negb (to_boolean (prop o "completed")))]> o
             else o) <$> os /\
    ids_of os' = ids_of os /\
    (NoDup (ids_of os) -> NoDup (ids_of os')).
Proof.
  intros Hread Ht.
  destruct (todos_toggle_read a Ht h prior os Hread) as (hx & r & Hrun & _ & _ & Hr).
  exists (h ++ hx), r, (toggle_obj (field a "id") <$> os).
  split; [done|]. split; [done|]. split; [done|].
  rewrite ids_of_toggle. by split.
Qed.

Lemma todos_toggle_values_witness :
  exists (h' : heap) (r : value),
    todos (VRef 2%nat) (toggleTodo (VNum 0)) two_todos = Ok (h', r) /\
    read_todos h' r =
      Some [ {[ "id" := VNum 0; "text" := VStr "buy milk";
                "completed" := VBool false ]};
             {[ "id" := VNum 1; "text" := VStr "walk dog";
                "completed" := VBool false ]} ].
Proof.
  destruct (todos_toggle_values two_todos (VRef 2%nat) _ (toggleTodo (VNum 0))
              eq_refl eq_refl) as (h' & r & os' & Hrun & Hread & -> & _).
  exists h', r. split; [exact Hrun|]. rewrite Hread. vm_compute. reflexivity.
Defined.

(** X2.  Two TOGGLE_TODO actions commute on the records: applying them in
    either order gives lists that read the same. *)
Theorem todos_toggle_commute (h : heap) (prior : value)
    (os : list (gmap string value)) (a1 a2 : action) :
  read_todos h prior = Some os ->
  field a1 "type" = VStr "TOGGLE_TODO" ->
  field a2 "type" = VStr "TOGGLE_TODO" ->
  exists (h1 h2 h1' h2' : heap) (r1 r2 r1' r2' : value)
         (os' : list (gmap string value)),
    todos prior a1 h = Ok (h1, r1) /\ todos r1 a2 h1 = Ok (h2, r2) /\
    todos prior a2 h = Ok (h1', r1') /\ todos r1' a1 h1' = Ok (h2', r2') /\
    read_todos h2 r2 = Some os' /\ read_todos h2' r2' = Some os'.
Proof.
  intros Hread Ht1 Ht2.
  destruct (todos_toggle_read a1 Ht1 h prior os Hread)
    as (hx1 & r1 & Hrun1 & _ & _ & Hr1).
  destruct (todos_toggle_read a2 Ht2 _ r1 _ Hr1)
    as (hx2 & r2 & Hrun2 & _ & _ & Hr2).
  destruct (todos_toggle_read a2 Ht2 h prior os Hread)
    as (hy1 & s1 & Hrun1' & _ & _ & Hs1).
  destruct (todos_toggle_read a1 Ht1 _ s1 _ Hs1)
    as (hy2 & s2 & Hrun2' & _ & _ & Hs2).
  exists (h ++ hx1), ((h ++ hx1) ++ hx2), (h ++ hy1), ((h ++ hy1) ++ hy2),
    r1, r2, s1, s2, (toggle_obj (field a2 "id") <$> (toggle_obj (field a1 "id") <$> os)).
  repeat (split; [done|]).
  rewrite Hs2. f_equal. rewrite <- !list_fmap_compose.
  apply list_fmap_ext. intros i o _. simpl. apply toggle_obj_comm.
Qed.

Lemma todos_toggle_commute_witness :
  exists (h1 h2 h1' h2' : heap) (r1 r2 r1' r2' : value)
         (os' : list (gmap string value)),
    todos (VRef 2%nat) (toggleTodo (VNum 0)) two_todos = Ok (h1, r1) /\
    todos r1 (toggleTodo (VNum 1)) h1 = Ok (h2, r2) /\
    todos (VRef 2%nat) (toggleTodo (VNum 1)) two_todos = Ok (h1', r1') /\
    todos r1' (toggleTodo (VNum 0)) h1' = Ok (h2', r2') /\
    read_todos h2 r2 = Some os' /\ read_todos h2' r2' = Some os'.
Proof.
  exact (todos_toggle_commute two_todos (VRef 2%nat) _ (toggleTodo (VNum 0))
           (toggleTodo (VNum 1)) eq_refl eq_refl eq_refl).
Defined.

Lemma toggle_obj_twice_norm k o :
  toggle_obj k (toggle_obj k o) =
  if decide (prop o "id" = k) then normalized o else o.
Proof.
  unfold toggle_obj. destruct (decide (prop o "id" = k)) as [Hk|Hk].
  - by rewrite toggled_id, decide_True, toggled_toggled.
  - by rewrite decide_False.
Qed.

Lemma toggle_obj_thrice k o :
  toggle_obj k (toggle_obj k (toggle_obj k o)) = toggle_obj k o.
Proof.
  rewrite (toggle_obj_twice_norm k o). unfold toggle_obj.
  destruct (decide (prop o "id" = k)) as [Hk|Hk].
  - by rewrite normalized_id, decide_True, toggled_normalized.
  - by rewrite decide_False.
Qed.

(** X3.  On any list of objects, two TOGGLE_TODO actions with the same id
    do not give back the prior records in general: in every record with
    that id, [completed] ends as the truthiness of its prior value, a
    boolean (so a todo without a [completed] field ends with
    [completed: false]); the other fields and the other records are as
    before.  A third such action gives what a single one gives. *)
Theorem todos_toggle_twice_normalizes (h : heap) (prior : value)
    (os : list (gmap string value)) (a : action) :
  read_todos h prior = Some os ->
  field a "type" = VStr "TOGGLE_TODO" ->
  exists (h1 h2 h3 : heap) (r1 r2 r3 : value),
    todos prior a h = Ok (h1, r1) /\
    todos r1 a h1 = Ok (h2, r2) /\
    todos r2 a h2 = Ok (h3, r3) /\
    read_todos h2 r2 =
      Some ((fun o =>
               if decide (prop o "id" = field a "id")
               then <["completed" := VBool (to_boolean (prop o "completed"))]> o
               else o) <$> os) /\
    read_todos h3 r3 = read_todos h1 r1.
Proof.
  intros Hread Ht.
  destruct (todos_toggle_read a Ht h prior os Hread)
    as (hx1 & r1 & Hrun1 & _ & _ & Hr1).
  destruct (todos_toggle_read a Ht _ r1 _ Hr1) as (hx2 & r2 & Hrun2 & _ & _ & Hr2).
  destruct (todos_toggle_read a Ht _ r2 _ Hr2) as (hx3 & r3 & Hrun3 & _ & _ & Hr3).
  exists (h ++ hx1), ((h ++ hx1) ++ hx2), (((h ++ hx1) ++ hx2) ++ hx3), r1, r2, r3.
  repeat (split; [done|]). split.
  - rewrite Hr2. f_equal. rewrite <- list_fmap_compose.
    apply list_fmap_ext. intros i o _. simpl. apply toggle_obj_twice_norm.
  - rewrite Hr3, Hr1. f_equal. rewrite <- !list_fmap_compose.
    apply list_fmap_ext. intros i o _. simpl. apply toggle_obj_thrice.
Qed.

Lemma todos_toggle_twice_normalizes_witness :
  exists (h1 h2 : heap) (r1 r2 : value),
    todos (VRef 1%nat) (toggleTodo (VNum 0))
          [OObj {[ "id" := VNum 0 ]}; OArr [VRef 0%nat]] = Ok (h1, r1) /\
    todos r1 (toggleTodo (VNum 0)) h1 = Ok (h2, r2) /\
    read_todos h2 r2 = Some [ {[ "id" := VNum 0; "completed" := VBool false ]} ].
Proof.
  destruct (todos_toggle_twice_normalizes
              [OObj {[ "id" := VNum 0 ]}; OArr [VRef 0%nat]] (VRef 1%nat) _
              (toggleTodo (VNum 0)) eq_refl eq_refl)
    as (h1 & h2 & _ & r1 & r2 & _ & Hrun1 & Hrun2 & _ & Hread & _).
  exists h1, h2, r1, r2. split; [exact Hrun1|]. split; [exact Hrun2|].
  rewrite Hread. vm_compute. reflexivity.
Defined.

(** ** TOGGLE_TODO: no match, and elements that are not todos *)

Lemma map_each_toggle_miss a vs os h :
  field a "type" = VStr "TOGGLE_TODO" ->
  Forall2 (fun x o => obj_of h x = Some o) vs os ->
  Forall (fun o => prop o "id" <> field a "id") os ->
  map_each (fun t => todo t a) vs h = Ok (h, vs).
Proof.
  intros Ht Hobjs. induction Hobjs as [|v o vs os Ho _ IH]; [done|].
  intros [Hne Hall]%Forall_cons. simpl.
  rewrite (bind_ok _ _ _ _ _ (todo_toggle_miss a Ht h v o Ho Hne)).
  by rewrite (bind_ok _ _ _ _ _ (IH Hall)).
Qed.

(** X4.  When no todo has the id of a TOGGLE_TODO action (in particular on
    the empty list), [todos] still returns a new array, not the prior one:
    its elements are the very same references in the same order, and the
    heap has grown by this array alone. *)
Theorem todos_toggle_no_match (h : heap) (prior : value) (vs : list value)
    (os : list (gmap string value)) (a : action) :
  arr_of h prior = Some vs ->
  Forall2 (fun x o => obj_of h x = Some o) vs os ->
  Forall (fun o => prop o "id" <> field a "id") os ->
  field a "type" = VStr "TOGGLE_TODO" ->
  todos prior a h = Ok (h ++ [OArr vs], VRef (length h)) /\
  VRef (length h) <> prior.
Proof.
  intros Harr Hobjs Hne Ht.
  destruct (arr_of_ref _ _ _ Harr) as (l & -> & Hl).
  split; [|intros [= Heq]; lia].
  unfold arr_of in Harr.
  destruct (h !! l) as [[|xs]|] eqn:El; try done. injection Harr as ->.
  unfold todos. simpl. unfold bind at 1, ret at 1. rewrite Ht. simpl.
  unfold array_map. unfold bind at 1. unfold array_elems. rewrite El.
  by rewrite (bind_ok _ _ _ _ _ (map_each_toggle_miss a vs os h Ht Hobjs Hne)).
Qed.

Lemma todos_toggle_no_match_witness :
  todos (VRef 2%nat) (toggleTodo (VNum 5)) two_todos =
    Ok (two_todos ++ [OArr [VRef 0%nat; VRef 1%nat]], VRef 3%nat) /\
  todos (VRef 0%nat) (toggleTodo (VNum 5)) [OArr []] =
    Ok ([OArr []; OArr []], VRef 1%nat).
Proof.
  split.
  - refine (proj1 (todos_toggle_no_match two_todos (VRef 2%nat)
                     [VRef 0%nat; VRef 1%nat] _ (toggleTodo (VNum 5))
                     eq_refl _ _ eq_refl)).
    + repeat constructor.
    + repeat constructor; vm_compute; discriminate.
  - refine (proj1 (todos_toggle_no_match [OArr []] (VRef 0%nat) [] []
                     (toggleTodo (VNum 5)) eq_refl _ _ eq_refl));
      constructor.
Defined.

Section toggle_errors.
Context (a : action) (Ht : field a "type" = VStr "TOGGLE_TODO").

Lemma todo_toggle_nullish h v :
  is_nullish v = true -> todo v a h = Throw TypeError.
Proof.
  intros Hn. unfold todo. rewrite Ht. simpl.
  by rewrite (bind_throw _ _ _ _ (get_prop_nullish h v "id" Hn)).
Qed.

Lemma todo_toggle_present h v :
  in_heap h v = true -> is_nullish v = false ->
  exists h1 w, todo v a h = Ok (h ++ h1, w).
Proof.
  intros Hv Hn. unfold todo. rewrite Ht. simpl.
  destruct (get_prop_present h v "id" Hv Hn) as [x Hx].
  rewrite (bind_ok _ _ _ _ _ Hx).
  destruct (negb (strict_eq x (field a "id"))).
  { exists [], v. by rewrite app_nil_r. }
  destruct (spread_props_in_heap h v Hv) as [o Ho].
  rewrite (bind_ok _ _ _ _ _ Ho).
  destruct (get_prop_present h v "completed" Hv Hn) as [c Hc].
  rewrite (bind_ok _ _ _ _ _ Hc). unfold new. eauto.
Qed.

Lemma map_each_toggle_throw vs : forall h,
  Forall (fun v => in_heap h v = true) vs ->
  Exists (fun v => is_nullish v = true) vs ->
  map_each (fun t => todo t a) vs h = Throw TypeError.
Proof.
  induction vs as [|v vs IH]; intros h Hall Hex; [by apply Exists_nil in Hex|].
  apply Forall_cons in Hall as [Hv Hvs]. simpl.
  destruct (is_nullish v) eqn:Hn.
  { by rewrite (bind_throw _ _ _ _ (todo_toggle_nullish h v Hn)). }
  apply Exists_cons in Hex as [Hex|Hex]; [congruence|].
  destruct (todo_toggle_present h v Hv Hn) as (h1 & w & Hw).
  rewrite (bind_ok _ _ _ _ _ Hw).
  assert (Hvs1 : Forall (fun x => in_heap (h ++ h1) x = true) vs).
  { eapply Forall_impl; [exact Hvs|]. intros x. apply in_heap_app. }
  by rewrite (bind_throw _ _ _ _ (IH (h ++ h1) Hvs1 Hex)).
Qed.
End toggle_errors.

Lemma existsb_Exists_true {A} (f : A -> bool) (xs : list A) :
  existsb f xs = true <-> Exists (fun x => f x = true) xs.
Proof.
  rewrite existsb_exists, Exists_exists. by setoid_rewrite list_elem_of_In.
Qed.

(** X5.  [todos] does not check its elements: when the prior array holds
    an [undefined] or [null] element, a TOGGLE_TODO action makes it throw a
    TypeError, whatever the other elements and the action's id are. *)
Theorem todos_toggle_nullish_throws (h : heap) (prior : value)
    (vs : list value) (a : action) :
  arr_of h prior = Some vs ->
  forallb (in_heap h) vs = true ->
  existsb is_nullish vs = true ->
  field a "type" = VStr "TOGGLE_TODO" ->
  todos prior a h = Throw TypeError.
Proof.
  intros Harr Hall%forallb_Forall_true Hex%existsb_Exists_true Ht.
  destruct (arr_of_ref _ _ _ Harr) as (l & -> & Hl).
  unfold arr_of in Harr.
  destruct (h !! l) as [[|xs]|] eqn:El; try done. injection Harr as ->.
  unfold todos. simpl. unfold bind at 1, ret at 1. rewrite Ht. simpl.
  unfold array_map. unfold bind at 1. unfold array_elems. rewrite El.
  by rewrite (bind_throw _ _ _ _ (map_each_toggle_throw a Ht vs h Hall Hex)).
Qed.

Lemma todos_toggle_nullish_throws_witness :
  todos (VRef 1%nat) (toggleTodo (VNum 7))
        [OObj {[ "id" := VNum 0 ]}; OArr [VRef 0%nat; VUndef]] =
  Throw TypeError.
Proof.
  exact (todos_toggle_nullish_throws
           [OObj {[ "id" := VNum 0 ]}; OArr [VRef 0%nat; VUndef]] (VRef 1%nat)
           [VRef 0%nat; VUndef] (toggleTodo (VNum 7))
           eq_refl eq_refl eq_refl eq_refl).
Defined.

(** ** ADD_TODO on the records *)

Lemma todos_add_read h prior os a :
  read_todos h prior = Some os ->
  field a "type" = VStr "ADD_TODO" ->
  exists hx r,
    todos prior a h = Ok (h ++ hx, r) /\ r <> prior /\ r <> VUndef /\
    read_todos (h ++ hx) r =
      Some (os ++ [ {[ "id" := field a "id"; "text" := field a "text";
                       "completed" := VBool false ]} ]).
Proof.
  intros (vs & Harr & Hobjs)%read_todos_inv Ht.
  destruct (arr_of_ref _ _ _ Harr) as (l & -> & Hl).
  exists [new_todo a; OArr (vs ++ [VRef (length h)])], (VRef (S (length h))).
  split; [by apply todos_add|].
  split; [intros [= Heq]; lia|]. split; [done|].
  apply read_todos_inv. exists (vs ++ [VRef (length h)]). split.
  - unfold arr_of.
    rewrite (cons_middle (new_todo a) h [_]), app_assoc.
    replace (S (length h)) with (length (h ++ [new_todo a]))
      by (rewrite length_app; simpl; lia).
    by rewrite lookup_heap_new.
  - apply Forall2_app; [by apply Forall2_obj_of_app|].
    constructor; [|constructor]. unfold obj_of.
    by rewrite (list_lookup_middle h _ (new_todo a) (length h)).
Qed.

(** X6.  On any list of objects, [todos] with an ADD_TODO action returns a
    list that reads as the prior records followed by
    [{id, text, completed: false}], so the ids are the prior ids followed
    by the action's id.  The reducer does not compare ids: the ids of the
    result are pairwise distinct exactly when the prior ones are and the
    action's id is not among them. *)
Theorem todos_add_values (h : heap) (prior : value)
    (os : list (gmap string value)) (a : action) :
  read_todos h prior = Some os ->
  field a "type" = VStr "ADD_TODO" ->
  exists (h' : heap) (r : value) (os' : list (gmap string value)),
    todos prior a h = Ok (h', r) /\
    read_todos h' r = Some os' /\
    os' = os ++ [ {[ "id" := field a "id"; "text" := field a "text";
                     "completed" := VBool false ]} ] /\
    ids_of os' = ids_of os ++ [field a "id"] /\
    (NoDup (ids_of os') <-> NoDup (ids_of os) /\ field a "id" ∉ ids_of os).
Proof.
  intros Hread Ht.
  destruct (todos_add_read h prior os a Hread Ht) as (hx & r & Hrun & _ & _ & Hr).
  eexists (h ++ hx), r, _. split; [done|]. split; [done|]. split; [done|].
  assert (Hids : ids_of (os ++ [ {[ "id" := field a "id"; "text" := field a "text";
                                    "completed" := VBool false ]} ]) =
                 ids_of os ++ [field a "id"]) by by rewrite ids_of_app.
  split; [done|]. rewrite Hids, NoDup_app. split.
  - intros (Hnd & Hnot & _). split; [done|]. intros Hin.
    apply (Hnot _ Hin). by apply list_elem_of_singleton.
  - intros [Hnd Hnot]. split; [done|]. split; [|apply NoDup_singleton].
    intros x Hx ->%list_elem_of_singleton. done.
Qed.

Lemma todos_add_values_witness :
  exists (h' : heap) (r : value) (os' : list (gmap string value)),
    todos (VRef 2%nat) (addTodo (VStr "again") 1).1 two_todos = Ok (h', r) /\
    read_todos h' r = Some os' /\
    ids_of os' = [VNum 0; VNum 1; VNum 1] /\ ~ NoDup (ids_of os').
Proof.
  destruct (todos_add_values two_todos (VRef 2%nat) _ (addTodo (VStr "again") 1).1
              eq_refl eq_refl) as (h' & r & os' & Hrun & Hread & _ & Hids & Hnd).
  exists h', r, os'. split; [exact Hrun|]. split; [exact Hread|].
  split; [exact Hids|].
  intros [_ Hnot]%Hnd. apply Hnot. vm_compute. apply list_elem_of_In.
  right. left. reflexivity.
Defined.

(** ** Prior states that are not arrays *)

Lemma todos_absent a h :
  todos VUndef a h = todos (VRef (length h)) a (h ++ [OArr []]).
Proof. reflexivity. Qed.

(** X7.  An absent prior state behaves as a newly allocated empty array:
    an ADD_TODO action then gives the one-element list of the new todo, a
    TOGGLE_TODO action an empty list. *)
Theorem todos_absent_prior (h : heap) (a : action) :
  todos VUndef a h = todos (VRef (length h)) a (h ++ [OArr []]) /\
  (field a "type" = VStr "ADD_TODO" ->
   exists (h' : heap) (r : value),
     todos VUndef a h = Ok (h', r) /\
     read_todos h' r =
       Some [ {[ "id" := field a "id"; "text" := field a "text";
                 "completed" := VBool false ]} ]) /\
  (field a "type" = VStr "TOGGLE_TODO" ->
   exists (h' : heap) (r : value),
     todos VUndef a h = Ok (h', r) /\ read_todos h' r = Some []).
Proof.
  assert (Hread : read_todos (h ++ [OArr []]) (VRef (length h)) = Some []).
  { unfold read_todos, arr_of. by rewrite lookup_heap_new. }
  split; [apply todos_absent|]. split; intros Ht; rewrite todos_absent.
  - destruct (todos_add_read _ _ _ a Hread Ht) as (hx & r & Hrun & _ & _ & Hr).
    by exists ((h ++ [OArr []]) ++ hx), r.
  - destruct (todos_toggle_read a Ht _ _ _ Hread) as (hx & r & Hrun & _ & _ & Hr).
    by exists ((h ++ [OArr []]) ++ hx), r.
Qed.

Lemma todos_absent_prior_witness :
  exists (h' : heap) (r : value),
    todos VUndef (addTodo (VStr "buy milk") 0).1 [] = Ok (h', r) /\
    read_todos h' r =
      Some [ {[ "id" := VNum 0; "text" := VStr "buy milk";
                "completed" := VBool false ]} ].
Proof.
  exact (proj1 (proj2 (todos_absent_prior [] (addTodo (VStr "buy milk") 0).1))
           eq_refl).
Defined.

(** X8.  [todos] does not check its prior state: when it is neither absent
    nor an array ([null], a boolean, a number, a string, a plain object), a
    TOGGLE_TODO action throws a TypeError, and so does an ADD_TODO action
    unless the prior state is a string. *)
Theorem todos_not_array_throws (h : heap) (prior : value) (a : action) :
  in_heap h prior = true ->
  arr_of h prior = None ->
  prior <> VUndef ->
  (field a "type" = VStr "TOGGLE_TODO" -> todos prior a h = Throw TypeError) /\
  (field a "type" = VStr "ADD_TODO" -> (forall s, prior <> VStr s) ->
   todos prior a h = Throw TypeError).
Proof.
  intros Hin Harr Hdef.
  assert (Hel : array_elems prior h = Throw TypeError).
  { destruct prior as [| | | | |l]; try done. simpl in *.
    apply bool_decide_eq_true in Hin as [c Hc]. rewrite Hc in *.
    by destruct c. }
  assert (Hit : (forall s, prior <> VStr s) -> iterate prior h = Throw TypeError).
  { intros Hstr. destruct prior as [| | | |s|l]; try done.
    by destruct (Hstr s). }
  split; intros Ht; unfold todos; rewrite (strict_eq_ne _ _ Hdef);
    unfold bind at 1, ret at 1; rewrite Ht; simpl.
  - unfold array_map. by rewrite (bind_throw _ _ _ _ Hel).
  - intros Hstr. by rewrite (bind_throw _ _ _ _ (Hit Hstr)).
Qed.

Lemma todos_not_array_throws_witness :
  todos VNull (toggleTodo (VNum 0)) [] = Throw TypeError /\
  todos (VRef 0%nat) (addTodo (VStr "x") 0).1 [OObj ∅] = Throw TypeError.
Proof.
  split.
  - refine (proj1 (todos_not_array_throws [] VNull (toggleTodo (VNum 0))
                     eq_refl eq_refl _) eq_refl).
    discriminate.
  - refine (proj2 (todos_not_array_throws [OObj ∅] (VRef 0%nat)
                     (addTodo (VStr "x") 0).1 eq_refl eq_refl _) eq_refl _);
      discriminate.
Defined.

(** * Further properties of the selector *)

Lemma completed_of_app h h' v :
  is_object h v = true -> completed_of (h ++ h') v = completed_of h v.
Proof.
  intros [o Ho]%is_object_obj_of. unfold completed_of.
  rewrite (obj_of_app _ h' _ _ Ho). by rewrite Ho.
Qed.

Lemma filter_ext_Forall {A} (P Q : A -> Prop)
    `{!forall x, Decision (P x), !forall x, Decision (Q x)} (l : list A) :
  Forall (fun x => P x <-> Q x) l -> filter P l = filter Q l.
Proof.
  induction 1 as [|x l Hx _ IH]; [done|].
  rewrite !filter_cons, IH. apply decide_ext. done.
Qed.

Lemma filter_none {A} (P : A -> Prop) `{!forall x, Decision (P x)} (l : list A) :
  (forall x, ~ P x) -> filter P l = [].
Proof.
  intros HP. induction l as [|x l IH]; [done|].
  by rewrite filter_cons_False.
Qed.

Lemma filter_each_truthy h vs :
  Forall (fun v => is_object h v = true) vs ->
  filter_each (fun t => get_prop t "completed") vs h =
    Ok (h, filter (fun v => to_boolean (completed_of h v) = true) vs).
Proof.
  induction 1 as [|v vs [o Ho]%is_object_obj_of _ IH]; [done|].
  simpl. rewrite (bind_ok _ _ _ _ _ (get_prop_obj _ _ _ "completed" Ho)).
  rewrite (bind_ok _ _ _ _ _ IH). unfold ret. rewrite filter_cons.
  assert (Hc : completed_of h v = prop o "completed")
    by (unfold completed_of; by rewrite Ho).
  rewrite Hc. destruct (to_boolean (prop o "completed")); by case_decide.
Qed.

Lemma filter_each_falsy h vs :
  Forall (fun v => is_object h v = true) vs ->
  filter_each (fun t => c <- get_prop t "completed" ;;
                        ret (VBool (negb (to_boolean c)))) vs h =
    Ok (h, filter (fun v => to_boolean (completed_of h v) = false) vs).
Proof.
  induction 1 as [|v vs [o Ho]%is_object_obj_of _ IH]; [done|].
  simpl.
  rewrite (bind_ok _ (fun keep => _) h h
             (VBool (negb (to_boolean (prop o "completed"))))).
  2:{ by rewrite (bind_ok _ _ _ _ _ (get_prop_obj _ _ _ "completed" Ho)). }
  rewrite (bind_ok _ _ _ _ _ IH). unfold ret. rewrite filter_cons.
  assert (Hc : completed_of h v = prop o "completed")
    by (unfold completed_of; by rewrite Ho).
  rewrite Hc. simpl. destruct (to_boolean (prop o "completed")); by case_decide.
Qed.

Lemma getVisibleTodos_objects h ts vs :
  arr_of h ts = Some vs ->
  Forall (fun v => is_object h v = true) vs ->
  getVisibleTodos ts (VStr "SHOW_COMPLETED") h =
    Ok (h ++ [OArr (filter (fun v => to_boolean (completed_of h v) = true) vs)],
        VRef (length h)) /\
  getVisibleTodos ts (VStr "SHOW_ACTIVE") h =
    Ok (h ++ [OArr (filter (fun v => to_boolean (completed_of h v) = false) vs)],
        VRef (length h)).
Proof.
  intros Harr Hall.
  destruct (arr_of_ref _ _ _ Harr) as (l & -> & Hl). unfold arr_of in Harr.
  destruct (h !! l) as [[|xs]|] eqn:El; try done. injection Harr as ->.
  split; unfold getVisibleTodos; simpl; unfold array_filter, bind at 1, array_elems;
    rewrite El.
  - by rewrite (bind_ok _ _ _ _ _ (filter_each_truthy h vs Hall)).
  - by rewrite (bind_ok _ _ _ _ _ (filter_each_falsy h vs Hall)).
Qed.

(** X9.  On any list of objects [getVisibleTodos] goes by the truthiness of
    [completed], not by its being [true]: SHOW_COMPLETED keeps the todos
    whose [completed] is truthy and SHOW_ACTIVE those whose [completed] is
    falsy (a missing [completed] counts as active).  The two results split
    the list: together they hold its elements, each in exactly one of
    them, and each result keeps the order and the references of the
    list. *)
Theorem getVisibleTodos_partition (h : heap) (ts : value) (vs : list value) :
  arr_of h ts = Some vs ->
  forallb (is_object h) vs = true ->
  let cs := filter (fun v => to_boolean (completed_of h v) = true) vs in
  let acs := filter (fun v => to_boolean (completed_of h v) = false) vs in
  getVisibleTodos ts (VStr "SHOW_COMPLETED") h =
    Ok (h ++ [OArr cs], VRef (length h)) /\
  getVisibleTodos ts (VStr "SHOW_ACTIVE") h =
    Ok (h ++ [OArr acs], VRef (length h)) /\
  cs ++ acs ≡ₚ vs /\
  (length cs + length acs = length vs)%nat /\
  (forall v, v ∈ cs -> v ∈ acs -> False) /\
  cs `sublist_of` vs /\ acs `sublist_of` vs.
Proof.
  intros Harr Hall%forallb_Forall_true cs acs.
  destruct (getVisibleTodos_objects h ts vs Harr Hall) as [Hc Ha].
  split; [done|]. split; [done|].
  assert (Hacs : acs = filter (fun v => ~ to_boolean (completed_of h v) = true) vs).
  { apply list_filter_iff. intros v.
    by destruct (to_boolean (completed_of h v)). }
  assert (Hperm : cs ++ acs ≡ₚ vs) by (rewrite Hacs; apply filter_app_complement).
  split; [done|].
  split; [by rewrite <- length_app, Hperm|].
  split; [|split; apply sublist_filter].
  intros v [Hv _]%list_elem_of_filter [Hv' _]%list_elem_of_filter. congruence.
Qed.

Lemma getVisibleTodos_partition_witness :
  getVisibleTodos (VRef 2%nat) (VStr "SHOW_COMPLETED")
    [OObj {[ "id" := VNum 0; "completed" := VNum 1 ]};
     OObj {[ "id" := VNum 1 ]}; OArr [VRef 0%nat; VRef 1%nat]] =
  Ok ([OObj {[ "id" := VNum 0; "completed" := VNum 1 ]};
       OObj {[ "id" := VNum 1 ]}; OArr [VRef 0%nat; VRef 1%nat];
       OArr [VRef 0%nat]], VRef 3%nat).
Proof.
  exact (proj1 (getVisibleTodos_partition
    [OObj {[ "id" := VNum 0; "completed" := VNum 1 ]};
     OObj {[ "id" := VNum 1 ]}; OArr [VRef 0%nat; VRef 1%nat]]
    (VRef 2%nat) [VRef 0%nat; VRef 1%nat] eq_refl eq_refl)).
Defined.

(** X11.  Filtering is idempotent and the two filters exclude each other:
    applied to the list it returned, [getVisibleTodos] with the same
    filter returns a list of the same elements, and with the other filter
    an empty list. *)
Theorem getVisibleTodos_again (h : heap) (ts : value) (vs : list value) :
  arr_of h ts = Some vs ->
  forallb (is_object h) vs = true ->
  let cs := filter (fun v => to_boolean (completed_of h v) = true) vs in
  let acs := filter (fun v => to_boolean (completed_of h v) = false) vs in
  let r := VRef (length h) in
  getVisibleTodos ts (VStr "SHOW_COMPLETED") h = Ok (h ++ [OArr cs], r) /\
  getVisibleTodos r (VStr "SHOW_COMPLETED") (h ++ [OArr cs]) =
    Ok ((h ++ [OArr cs]) ++ [OArr cs], VRef (S (length h))) /\
  getVisibleTodos r (VStr "SHOW_ACTIVE") (h ++ [OArr cs]) =
    Ok ((h ++ [OArr cs]) ++ [OArr []], VRef (S (length h))) /\
  getVisibleTodos ts (VStr "SHOW_ACTIVE") h = Ok (h ++ [OArr acs], r) /\
  getVisibleTodos r (VStr "SHOW_ACTIVE") (h ++ [OArr acs]) =
    Ok ((h ++ [OArr acs]) ++ [OArr acs], VRef (S (length h))) /\
  getVisibleTodos r (VStr "SHOW_COMPLETED") (h ++ [OArr acs]) =
    Ok ((h ++ [OArr acs]) ++ [OArr []], VRef (S (length h))).
Proof.
  intros Harr Hall%forallb_Forall_true cs acs r.
  destruct (getVisibleTodos_objects h ts vs Harr Hall) as [Hc Ha].
  assert (Hsecond : forall ws,
    ws `sublist_of` vs ->
    getVisibleTodos r (VStr "SHOW_COMPLETED") (h ++ [OArr ws]) =
      Ok ((h ++ [OArr ws]) ++
            [OArr (filter (fun v => to_boolean (completed_of h v) = true) ws)],
          VRef (S (length h))) /\
    getVisibleTodos r (VStr "SHOW_ACTIVE") (h ++ [OArr ws]) =
      Ok ((h ++ [OArr ws]) ++
            [OArr (filter (fun v => to_boolean (completed_of h v) = false) ws)],
          VRef (S (length h)))).
  { intros ws Hsub.
    assert (Hws : Forall (fun v => is_object h v = true) ws).
    { apply Forall_forall. intros x Hx.
      by apply (proj1 (Forall_forall _ _) Hall), (elem_of_sublist ws). }
    assert (Hws1 : Forall (fun v => is_object (h ++ [OArr ws]) v = true) ws).
    { eapply Forall_impl; [exact Hws|]. intros x. apply is_object_app. }
    assert (Harr1 : arr_of (h ++ [OArr ws]) r = Some ws).
    { unfold arr_of, r. by rewrite lookup_heap_new. }
    destruct (getVisibleTodos_objects _ r ws Harr1 Hws1) as [Hc1 Ha1].
    rewrite length_app, Nat.add_1_r in Hc1, Ha1.
    assert (Hsame : forall b,
      filter (fun v => to_boolean (completed_of (h ++ [OArr ws]) v) = b) ws =
      filter (fun v => to_boolean (completed_of h v) = b) ws).
    { intros b. apply filter_ext_Forall.
      eapply Forall_impl; [exact Hws|]. intros x Hx. simpl.
      by rewrite (completed_of_app _ _ _ Hx). }
    by rewrite Hc1, Ha1, !Hsame. }
  destruct (Hsecond cs (sublist_filter _ _)) as [Hcc Hca].
  destruct (Hsecond acs (sublist_filter _ _)) as [Hac Haa].
  split; [done|]. split.
  { rewrite Hcc. unfold cs at 2. by rewrite list_filter_filter_r. }
  split.
  { rewrite Hca. unfold cs at 2. rewrite list_filter_filter.
    rewrite filter_none; [done|]. intros x [H1 H2]. congruence. }
  split; [done|]. split.
  { rewrite Haa. unfold acs at 2. by rewrite list_filter_filter_r. }
  rewrite Hac. unfold acs at 2. rewrite list_filter_filter.
  rewrite filter_none; [done|]. intros x [H1 H2]. congruence.
Qed.

Lemma getVisibleTodos_again_witness :
  getVisibleTodos (VRef 3%nat) (VStr "SHOW_ACTIVE")
    (two_todos ++ [OArr [VRef 0%nat]]) =
  Ok ((two_todos ++ [OArr [VRef 0%nat]]) ++ [OArr []], VRef 4%nat).
Proof.
  exact (proj1 (proj2 (proj2 (getVisibleTodos_again two_todos (VRef 2%nat)
                  [VRef 0%nat; VRef 1%nat] eq_refl eq_refl)))).
Defined.

Section filter_errors.
(** A callback of [filter] that reads a property of its argument first. *)
Context (cb : value -> M value).
Context (cb_nullish : forall h v, is_nullish v = true -> cb v h = Throw TypeError).
Context (cb_present : forall h v, in_heap h v = true -> is_nullish v = false ->
                                  exists x, cb v h = Ok (h, x)).

Lemma filter_each_throw h vs :
  Forall (fun v => in_heap h v = true) vs ->
  Exists (fun v => is_nullish v = true) vs ->
  filter_each cb vs h = Throw TypeError.
Proof.
  induction 1 as [|v vs Hv _ IH]; intros Hex; [by apply Exists_nil in Hex|].
  simpl. destruct (is_nullish v) eqn:Hn.
  { by rewrite (bind_throw _ _ _ _ (cb_nullish h v Hn)). }
  apply Exists_cons in Hex as [Hex|Hex]; [congruence|].
  destruct (cb_present h v Hv Hn) as [x Hx].
  rewrite (bind_ok _ _ _ _ _ Hx). by rewrite (bind_throw _ _ _ _ (IH Hex)).
Qed.
End filter_errors.

Lemma array_elems_not_array h v :
  in_heap h v = true -> arr_of h v = None -> array_elems v h = Throw TypeError.
Proof.
  destruct v as [| | | | |l]; try done. simpl.
  intros [c Hc]%bool_decide_eq_true. rewrite Hc. by destruct c.
Qed.

(** X10.  For SHOW_COMPLETED and SHOW_ACTIVE [getVisibleTodos] does not
    check its argument: it throws a TypeError when the todos are not an
    array ([undefined], [null], a primitive, a plain object), and when the
    array holds an [undefined] or [null] element. *)
Theorem getVisibleTodos_throws (h : heap) (ts f : value) :
  f = VStr "SHOW_COMPLETED" \/ f = VStr "SHOW_ACTIVE" ->
  in_heap h ts = true ->
  (arr_of h ts = None -> getVisibleTodos ts f h = Throw TypeError) /\
  (forall vs, arr_of h ts = Some vs ->
              forallb (in_heap h) vs = true -> existsb is_nullish vs = true ->
              getVisibleTodos ts f h = Throw TypeError).
Proof.
  intros Hf Hin. split.
  - intros Hnone. pose proof (array_elems_not_array h ts Hin Hnone) as Hel.
    destruct Hf as [-> | ->]; unfold getVisibleTodos; simpl;
      unfold array_filter; by rewrite (bind_throw _ _ _ _ Hel).
  - intros vs Harr Hall%forallb_Forall_true Hex%existsb_Exists_true.
    destruct (arr_of_ref _ _ _ Harr) as (l & -> & Hl). unfold arr_of in Harr.
    destruct (h !! l) as [[|xs]|] eqn:El; try done. injection Harr as ->.
    destruct Hf as [-> | ->]; unfold getVisibleTodos; simpl;
      unfold array_filter, bind at 1, array_elems; rewrite El.
    + rewrite (bind_throw _ _ h TypeError); [done|].
      apply filter_each_throw; try done.
      * intros h0 v Hn. by apply get_prop_nullish.
      * intros h0 v Hv Hn. by apply get_prop_present.
    + rewrite (bind_throw _ _ h TypeError); [done|].
      apply filter_each_throw; try done.
      * intros h0 v Hn. by rewrite (bind_throw _ _ _ _ (get_prop_nullish h0 v _ Hn)).
      * intros h0 v Hv Hn.
        destruct (get_prop_present h0 v "completed" Hv Hn) as [x Hx].
        rewrite (bind_ok _ _ _ _ _ Hx). unfold ret. eauto.
Qed.

Lemma getVisibleTodos_throws_witness :
  getVisibleTodos VUndef (VStr "SHOW_ACTIVE") [] = Throw TypeError /\
  getVisibleTodos (VRef 0%nat) (VStr "SHOW_COMPLETED") [OArr [VNull]] =
    Throw TypeError.
Proof.
  split.
  - exact (proj1 (getVisibleTodos_throws [] VUndef (VStr "SHOW_ACTIVE")
                    (or_intror eq_refl) eq_refl) eq_refl).
  - exact (proj2 (getVisibleTodos_throws [OArr [VNull]] (VRef 0%nat)
                    (VStr "SHOW_COMPLETED") (or_introl eq_refl) eq_refl)
             [VNull] eq_refl eq_refl eq_refl).
Defined.

(** * The action creators against the reducers *)

(** X12.  Each creator's action changes one slice only: the action of
    [setVisibilityFilter] leaves the todos as they are (the same
    reference), and the actions of [addTodo] and [toggleTodo] leave the
    filter as it is; none of these calls touches the heap. *)
Theorem creators_one_slice (h : heap) (s : value) :
  s <> VUndef ->
  (forall f, todos s (setVisibilityFilter f) h = Ok (h, s)) /\
  (forall text n, visibilityFilter s (addTodo text n).1 h = Ok (h, s)) /\
  (forall id, visibilityFilter s (toggleTodo id) h = Ok (h, s)).
Proof.
  intros Hs. split; [|split].
  - intros f. by apply todos_other.
  - intros text n. by apply visibilityFilter_other.
  - intros id. by apply visibilityFilter_other.
Qed.

Lemma creators_one_slice_witness :
  todos (VRef 2%nat) (setVisibilityFilter (VStr "SHOW_ACTIVE")) two_todos =
    Ok (two_todos, VRef 2%nat).
Proof.
  refine (proj1 (creators_one_slice two_todos (VRef 2%nat) _) _). discriminate.
Defined.

(** * The running application against plain records *)

Lemma prop_item_id t : prop (item_obj t) "id" = VNum (i_id t).
Proof. reflexivity. Qed.

Lemma prop_item_completed t : prop (item_obj t) "completed" = VBool (i_completed t).
Proof. reflexivity. Qed.

Lemma toggled_item t :
  toggled (item_obj t) = item_obj (Item (i_id t) (i_text t) (negb (i_completed t))).
Proof.
  unfold toggled. rewrite prop_item_completed. simpl.
  destruct t as [i x b]. reflexivity.
Qed.

Lemma toggle_obj_item id t :
  toggle_obj id (item_obj t) = item_obj (item_toggle id t).
Proof.
  unfold toggle_obj, item_toggle. rewrite prop_item_id.
  destruct (decide (VNum (i_id t) = id)); [apply toggled_item|done].
Qed.

Lemma visibilityFilter_set h s a :
  field a "type" = VStr "SET_VISIBILITY_FILTER" ->
  visibilityFilter s a h = Ok (h, field a "filter").
Proof. intros Ht. unfold visibilityFilter. by rewrite Ht. Qed.

(** The root reducer, from what its two slice reducers return: the
    resulting state object holds the two results. *)
Lemma todoApp_slices h hx s o a t' f' :
  obj_of h s = Some o ->
  todos (prop o "todos") a h = Ok (h ++ hx, t') ->
  visibilityFilter (prop o "visibilityFilter") a (h ++ hx) = Ok (h ++ hx, f') ->
  t' <> VUndef -> f' <> VUndef ->
  exists hy s' o',
    todoApp s a h = Ok ((h ++ hx) ++ hy, s') /\
    obj_of ((h ++ hx) ++ hy) s' = Some o' /\
    prop o' "todos" = t' /\ prop o' "visibilityFilter" = f'.
Proof.
  intros Ho Ht Hf Ht' Hf'.
  rewrite (todoApp_step h hx s o a t' f' Ho Ht Hf Ht' Hf').
  destruct (strict_eq t' (prop o "todos") &&
            strict_eq f' (prop o "visibilityFilter")) eqn:E.
  - apply andb_true_iff in E as [->%strict_eq_true ->%strict_eq_true].
    exists [], s, o. rewrite app_nil_r. split; [done|].
    split; [by apply obj_of_app|done].
  - exists [OObj {[ "todos" := t'; "visibilityFilter" := f' ]}],
      (VRef (length (h ++ hx))), {[ "todos" := t'; "visibilityFilter" := f' ]}.
    split; [done|]. split; [unfold obj_of; by rewrite lookup_heap_new|done].
Qed.

Lemma represents_inv h st n s :
  represents (World h st n) s <->
  n = a_next s /\
  exists o, obj_of h st = Some o /\
            read_todos h (prop o "todos") = Some (item_obj <$> a_todos s) /\
            prop o "visibilityFilter" = VStr (a_filter s).
Proof.
  unfold represents, state_todos, state_filter. simpl.
  destruct (obj_of h st) as [o|]; simpl.
  - split.
    + intros (Hn & Hts & [= Hf]). split; [done|]. by exists o.
    + intros (Hn & o' & [= <-] & Hts & Hf). by rewrite Hf.
  - split; [by intros (_ & ? & _)|by intros (_ & ? & ? & _)].
Qed.

Lemma read_todos_ref h v os : read_todos h v = Some os -> v <> VUndef.
Proof. intros (vs & Harr & _)%read_todos_inv ->. done. Qed.

Lemma handle_represents w s e :
  represents w s ->
  exists w', handle w e = Ok w' /\ represents w' (app_step s e).
Proof.
  destruct w as [h st n].
  intros (Hn & o & Ho & Hts & Hf)%represents_inv.
  pose proof (read_todos_ref _ _ _ Hts) as Hdef.
  destruct e as [text|id|f].
  - set (a := (addTodo (VStr text) n).1).
    assert (Hty : field a "type" = VStr "ADD_TODO") by reflexivity.
    destruct (todos_add_read h _ _ a Hts Hty) as (hx & r & Hrun & _ & Hr & Hread).
    destruct (todoApp_slices h hx st o a r (VStr (a_filter s)) Ho Hrun)
      as (hy & s' & o' & Happ & Ho' & Hts' & Hf'); try done.
    { rewrite Hf. apply visibilityFilter_other; [by rewrite Hty|done]. }
    eexists. split.
    { refine (dispatch_in_ok (World h st n) a (n + 1) _ _ _ Happ). by rewrite Hty. }
    apply represents_inv. split; [simpl; by rewrite Hn|].
    exists o'. split; [done|]. split; [|done].
    rewrite Hts'. apply read_todos_app. rewrite Hread. simpl.
    rewrite fmap_app. by rewrite <- Hn.
  - set (a := toggleTodo id).
    assert (Hty : field a "type" = VStr "TOGGLE_TODO") by reflexivity.
    destruct (todos_toggle_read a Hty h _ _ Hts) as (hx & r & Hrun & _ & Hr & Hread).
    destruct (todoApp_slices h hx st o a r (VStr (a_filter s)) Ho Hrun)
      as (hy & s' & o' & Happ & Ho' & Hts' & Hf'); try done.
    { rewrite Hf. apply visibilityFilter_other; [by rewrite Hty|done]. }
    eexists. split.
    { refine (dispatch_in_ok (World h st n) a n _ _ _ Happ). by rewrite Hty. }
    apply represents_inv. split; [done|].
    exists o'. split; [done|]. split; [|done].
    rewrite Hts'. apply read_todos_app. rewrite Hread. simpl. f_equal.
    rewrite <- !list_fmap_compose. apply list_fmap_ext.
    intros i t _. simpl. apply toggle_obj_item.
  - set (a := setVisibilityFilter (VStr f)).
    assert (Hty : field a "type" = VStr "SET_VISIBILITY_FILTER") by reflexivity.
    assert (Hrun : todos (prop o "todos") a h = Ok (h ++ [], prop o "todos")).
    { rewrite app_nil_r. apply todos_other; rewrite ?Hty; done. }
    assert (Hvf : visibilityFilter (prop o "visibilityFilter") a (h ++ []) =
                  Ok (h ++ [], VStr f)) by by apply visibilityFilter_set.
    destruct (todoApp_slices h [] st o a _ _ Ho Hrun Hvf Hdef)
      as (hy & s' & o' & Happ & Ho' & Hts' & Hf'); [done|].
    rewrite app_nil_r in Happ, Ho'.
    eexists. split.
    { refine (dispatch_in_ok (World h st n) a n _ _ _ Happ). by rewrite Hty. }
    apply represents_inv. split; [done|].
    exists o'. split; [done|]. split; [|done].
    rewrite Hts'. by apply read_todos_app.
Qed.

Lemma app_run_snoc es e : app_run (es ++ [e]) = app_step (app_run es) e.
Proof. unfold app_run. by rewrite fold_left_app. Qed.

Lemma run_snoc w es e :
  run w (es ++ [e]) =
  match run w es with
  | Ok w' => handle w' e
  | Throw err => Throw err
  end.
Proof.
  revert w. induction es as [|e' es IH]; intros w; simpl.
  - by destruct (handle w e).
  - destruct (handle w e'); [apply IH|done].
Qed.

Lemma start_represents : exists w, start = Ok w /\ represents w app_init.
Proof. eexists. split; [vm_compute; reflexivity|]. by repeat split. Qed.

Lemma run_represents es :
  exists w, run_from_start es = Ok w /\ represents w (app_run es).
Proof.
  unfold run_from_start. destruct start_represents as (w0 & -> & Hw0).
  induction es as [|e es IH] using rev_ind; [by exists w0|].
  destruct IH as (w & Hrun & Hw).
  destruct (handle_represents w _ e Hw) as (w' & Hstep & Hw').
  exists w'. rewrite run_snoc, Hrun, app_run_snoc. by split.
Qed.

(** X13.  The running application is the plain fold of the events: after
    any sequence of user events from start-up, none of which throws, the
    state's todos read as the records, its filter is the filter and the
    counter is the counter obtained by folding [app_step] over the events,
    where adding appends [{id: counter, text, completed: false}] and
    increments the counter, a click on a todo negates [completed] in the
    todos with that id, and a click on a filter link replaces the
    filter. *)
Theorem run_is_fold (es : list event) :
  exists w : world,
    run_from_start es = Ok w /\
    w_nextTodoId w = a_next (app_run es) /\
    state_todos w = Some (item_obj <$> a_todos (app_run es)) /\
    state_filter w = Some (VStr (a_filter (app_run es))).
Proof. apply run_represents. Qed.

Example run_is_fold_example :
  exists w : world,
    run_from_start [AddTodoClick "a"; TodoClick (VNum 0)] = Ok w /\
    state_todos w =
      Some [ {[ "id" := VNum 0; "text" := VStr "a"; "completed" := VBool true ]} ].
Proof.
  destruct (run_represents [AddTodoClick "a"; TodoClick (VNum 0)])
    as (w & Hrun & _ & Hts & _).
  exists w. split; [exact Hrun|]. rewrite Hts. vm_compute. reflexivity.
Qed.

Lemma added_texts_snoc es e :
  added_texts (es ++ [e]) =
  added_texts es ++ match e with AddTodoClick t => [t] | _ => [] end.
Proof. unfold added_texts. rewrite omap_app. by destruct e. Qed.

Lemma clicked_filters_snoc es e :
  clicked_filters (es ++ [e]) =
  clicked_filters es ++ match e with FilterLinkClick f => [f] | _ => [] end.
Proof. unfold clicked_filters. rewrite omap_app. by destruct e. Qed.

Lemma app_run_todos es :
  (fun t => (i_id t, i_text t)) <$> a_todos (app_run es) =
    imap (fun i t => (Z.of_nat i, t)) (added_texts es) /\
  a_next (app_run es) = Z.of_nat (length (added_texts es)).
Proof.
  induction es as [|e es [IH1 IH2]] using rev_ind; [done|].
  rewrite app_run_snoc, added_texts_snoc. destruct e as [text|id|f]; simpl.
  - rewrite fmap_app, IH1, imap_app, length_app. simpl. split.
    + rewrite IH2. do 3 f_equal. lia.
    + rewrite IH2. lia.
  - rewrite app_nil_r. split; [|done]. rewrite <- IH1, <- list_fmap_compose.
    apply list_fmap_ext. intros i t _. simpl. unfold item_toggle.
    by destruct (decide (VNum (i_id t) = id)).
  - by rewrite app_nil_r.
Qed.

Lemma app_run_filter es :
  a_filter (app_run es) = default "SHOW_ALL" (last (clicked_filters es)).
Proof.
  induction es as [|e es IH] using rev_ind; [done|].
  rewrite app_run_snoc, clicked_filters_snoc. destruct e as [text|id|f]; simpl.
  - by rewrite app_nil_r.
  - by rewrite app_nil_r.
  - by rewrite last_snoc.
Qed.

(** X14.  After any sequence of user events from start-up, the todos of
    the state are, in order, one per text typed into [AddTodo]: the i-th
    one (from 0) has id i and that text.  No event removes a todo,
    reorders the todos or changes an id or a text. *)
Theorem run_todos_are_added_texts (es : list event) :
  exists (w : world) (os : list (gmap string value)),
    run_from_start es = Ok w /\
    state_todos w = Some os /\
    (fun o => (prop o "id", prop o "text")) <$> os =
      imap (fun i t => (VNum (Z.of_nat i), VStr t)) (added_texts es).
Proof.
  destruct (run_represents es) as (w & Hrun & _ & Hts & _).
  exists w, (item_obj <$> a_todos (app_run es)). split; [done|]. split; [done|].
  destruct (app_run_todos es) as [Hpairs _].
  rewrite <- list_fmap_compose.
  transitivity ((fun p : Z * string => (VNum p.1, VStr p.2)) <$>
                ((fun t => (i_id t, i_text t)) <$> a_todos (app_run es))).
  - rewrite <- list_fmap_compose. by apply list_fmap_ext.
  - rewrite Hpairs, fmap_imap. by apply imap_ext.
Qed.

(** X15.  After any sequence of user events from start-up, the filter of
    the state is the one of the last click on a filter link, and SHOW_ALL
    when no link was clicked. *)
Theorem run_filter_is_last_click (es : list event) :
  exists w : world,
    run_from_start es = Ok w /\
    state_filter w = Some (VStr (default "SHOW_ALL" (last (clicked_filters es)))).
Proof.
  destruct (run_represents es) as (w & Hrun & _ & _ & Hf).
  exists w. split; [done|]. by rewrite Hf, app_run_filter.
Qed.

(** * The view bindings *)

Lemma Forall2_filter_items h b vs : forall items,
  Forall2 (fun v o => obj_of h v = Some o) vs (item_obj <$> items) ->
  Forall2 (fun v o => obj_of h v = Some o)
    (filter (fun v => to_boolean (completed_of h v) = b) vs)
    (item_obj <$> filter (fun t => i_completed t = b) items).
Proof.
  induction vs as [|v vs IH]; intros items Hobjs.
  - apply Forall2_nil_inv_l in Hobjs. apply fmap_nil_inv in Hobjs as ->.
    constructor.
  - destruct items as [|t items]; [by apply Forall2_cons_nil_inv in Hobjs|].
    rewrite fmap_cons in Hobjs. apply Forall2_cons in Hobjs as [Hv Hrest].
    assert (Hc : to_boolean (completed_of h v) = i_completed t)
      by (unfold completed_of; by rewrite Hv).
    rewrite !filter_cons, Hc.
    destruct (decide (i_completed t = b)).
    + rewrite fmap_cons. constructor; [done|by apply IH].
    + by apply IH.
Qed.

Lemma getVisibleTodos_represented h ts items f n :
  read_todos h ts = Some (item_obj <$> items) ->
  f ∈ footer_filters ->
  exists hx v,
    getVisibleTodos ts (VStr f) h = Ok (h ++ hx, v) /\
    read_todos (h ++ hx) v = Some (item_obj <$> app_visible (App items f n)).
Proof.
  intros Hread Hf.
  pose proof Hread as (vs & Harr & Hobjs)%read_todos_inv.
  destruct (getVisibleTodos_objects h ts vs Harr (Forall2_obj_is_object _ _ _ Hobjs))
    as [Hc Ha].
  unfold footer_filters in Hf. unfold app_visible. simpl.
  apply elem_of_cons in Hf as [->|Hf]; [|apply elem_of_cons in Hf as [->|Hf]];
    [| |apply list_elem_of_singleton in Hf as ->].
  - exists [], ts. rewrite app_nil_r. by split.
  - eexists [_], _. split; [exact Ha|]. apply read_todos_inv.
    eexists. split; [unfold arr_of; by rewrite lookup_heap_new|].
    apply Forall2_obj_of_app. by apply Forall2_filter_items.
  - eexists [_], _. split; [exact Hc|]. apply read_todos_inv.
    eexists. split; [unfold arr_of; by rewrite lookup_heap_new|].
    apply Forall2_obj_of_app. by apply Forall2_filter_items.
Qed.

Lemma app_run_filter_footer es :
  Forall (fun f => f ∈ footer_filters) (clicked_filters es) ->
  a_filter (app_run es) ∈ footer_filters.
Proof.
  intros Hall. rewrite app_run_filter.
  destruct (last (clicked_filters es)) as [f|] eqn:E; simpl.
  - apply (proj1 (Forall_forall _ _) Hall). by eapply last_Some_elem_of.
  - unfold footer_filters. apply elem_of_cons. by left.
Qed.

(** X16.  After any sequence of user events from start-up in which the
    filter links clicked are those of [Footer], [mapStateToTodoListProps]
    returns a props object whose [todos] is an array; it reads as the
    state's todos for SHOW_ALL, those with [completed: true] for
    SHOW_COMPLETED and those with [completed: false] for SHOW_ACTIVE: the
    list component is never handed [undefined]. *)
Theorem mapStateToTodoListProps_after_run (es : list event) :
  forallb (fun f => bool_decide (f ∈ footer_filters)) (clicked_filters es) = true ->
  exists (w : world) (h : heap) (p v : value),
    run_from_start es = Ok w /\
    mapStateToTodoListProps (w_state w) (w_heap w) = Ok (h, p) /\
    obj_of h p = Some {[ "todos" := v ]} /\
    read_todos h v = Some (item_obj <$> app_visible (app_run es)).
Proof.
  intros Hfs%forallb_Forall_true.
  assert (Hfooter : a_filter (app_run es) ∈ footer_filters).
  { apply app_run_filter_footer. eapply Forall_impl; [exact Hfs|].
    intros f. apply bool_decide_eq_true. }
  destruct (run_represents es) as ([h0 st n] & Hrun & Hrep).
  apply represents_inv in Hrep as (Hn & o & Ho & Hts & Hf).
  destruct (getVisibleTodos_represented h0 _ _ _ (a_next (app_run es)) Hts Hfooter)
    as (hx & v & Hvis & Hread).
  exists (World h0 st n), ((h0 ++ hx) ++ [OObj {[ "todos" := v ]}]),
    (VRef (length (h0 ++ hx))), v.
  split; [done|]. split; [|split].
  - unfold mapStateToTodoListProps. simpl.
    rewrite (bind_ok _ _ _ _ _ (get_prop_obj _ _ _ "todos" Ho)).
    rewrite (bind_ok _ _ _ _ _ (get_prop_obj _ _ _ "visibilityFilter" Ho)).
    rewrite Hf. by rewrite (bind_ok _ _ _ _ _ Hvis).
  - unfold obj_of. by rewrite lookup_heap_new.
  - apply read_todos_app. rewrite Hread. by destruct (app_run es).
Qed.

Lemma mapStateToTodoListProps_after_run_witness :
  exists (w : world) (h : heap) (p v : value),
    run_from_start [AddTodoClick "buy milk"; TodoClick (VNum 0);
                    AddTodoClick "walk dog"; FilterLinkClick "SHOW_ACTIVE"] = Ok w /\
    mapStateToTodoListProps (w_state w) (w_heap w) = Ok (h, p) /\
    obj_of h p = Some {[ "todos" := v ]} /\
    read_todos h v =
      Some [ {[ "id" := VNum 1; "text" := VStr "walk dog";
                "completed" := VBool false ]} ].
Proof.
  exact (mapStateToTodoListProps_after_run
           [AddTodoClick "buy milk"; TodoClick (VNum 0);
            AddTodoClick "walk dog"; FilterLinkClick "SHOW_ACTIVE"] eq_refl).
Defined.

(** X17.  [mapStateToLinkProps] marks a filter link as active exactly when
    its [filter] prop is the state's filter.  So, of the three links of
    [Footer], exactly one is active when the state's filter is one of
    SHOW_ALL, SHOW_ACTIVE, SHOW_COMPLETED, and none is for any other
    filter. *)
Theorem mapStateToLinkProps_active (h : heap) (state : value)
    (o : gmap string value) (f : string) :
  obj_of h state = Some o ->
  prop o "visibilityFilter" = VStr f ->
  (forall (ownProps : gmap string value) (g : string),
     field ownProps "filter" = VStr g ->
     mapStateToLinkProps state ownProps h =
       Ok (h ++ [OObj {[ "active" := VBool (bool_decide (g = f)) ]}],
           VRef (length h))) /\
  filter (fun g => g = f) footer_filters =
    if decide (f ∈ footer_filters) then [f] else [].
Proof.
  intros Ho Hf. split.
  - intros ownProps g Hg. unfold mapStateToLinkProps.
    rewrite (bind_ok _ _ _ _ _ (get_prop_obj _ _ _ "visibilityFilter" Ho)).
    rewrite Hf, Hg. unfold new, strict_eq.
    assert (Hb : bool_decide (VStr g = VStr f) = bool_decide (g = f)).
    { apply bool_decide_ext. split; [by intros [= ->]|by intros ->]. }
    by rewrite Hb.
  - unfold footer_filters. rewrite !filter_cons, filter_nil.
    destruct (decide (f ∈ _)) as [Hin|Hnot].
    + apply elem_of_cons in Hin as [->|Hin]; [done|].
      apply elem_of_cons in Hin as [->|Hin]; [done|].
      apply list_elem_of_singleton in Hin as ->. done.
    + repeat case_decide; subst; try done; destruct Hnot; set_solver.
Qed.

Lemma mapStateToLinkProps_active_witness :
  mapStateToLinkProps (VRef 0%nat) {[ "filter" := VStr "SHOW_ACTIVE" ]}
    [OObj {[ "todos" := VNull; "visibilityFilter" := VStr "SHOW_ALL" ]}] =
  Ok ([OObj {[ "todos" := VNull; "visibilityFilter" := VStr "SHOW_ALL" ]};
       OObj {[ "active" := VBool false ]}], VRef 1%nat).
Proof.
  exact (proj1 (mapStateToLinkProps_active
    [OObj {[ "todos" := VNull; "visibilityFilter" := VStr "SHOW_ALL" ]}]
    (VRef 0%nat) _ "SHOW_ALL" eq_refl eq_refl)
    {[ "filter" := VStr "SHOW_ACTIVE" ]} "SHOW_ACTIVE" eq_refl).
Defined.
